(** * go-tmx: the TMX layer decoder, the GID resolver and the console exporter

    A shallow embedding of [tmx/tmx.go] (package tmx), of the exporter
    [tmx2console] ([Do], [saveLayer], [saveLayerBitmap], [GetProperty]) and of
    its GBA target ([gba.go]).

    Conventions of the embedding.
    - [GID] and [ID] are Go [uint32]: a [Z] with the wrap-around [uint32]
      written where the source computes.  Go's [int] (map dimensions, slice
      indices) is a [Z] or a [nat] without wrap-around.
    - A [*Tileset] always points into [m.Tilesets]; it is the index of the
      element it points to, [None] for the nil pointer.
    - A [*Layer] used as a map key is an address [addr].
    - A Go [error] result is [Err e]; a run-time panic (index out of range,
      nil dereference) is [Err Panic]. *)

From Stdlib Require Import ZArith List String Ascii Bool Lia.
From Stdlib Require Import Strings.Byte.
From stdpp Require Import base option list gmap strings.

Local Open Scope string_scope.
Local Open Scope Z_scope.

(** ** Errors *)

Inductive error : Type :=
  (* package tmx *)
  | UnknownEncoding
  | UnknownCompression
  | InvalidDecodedDataLen
  | InvalidGID
  | InvalidPointsField
  (* tmx2console *)
  | WrongFileExtension
  | InvalidCompressionMethod
  | TooManyTiles
  | MultipleTilesets
  | EmptyLayer
  | PropertyNotUnique
  | PropertyUnavailable
  (* strconv.ParseUint *)
  | ErrSyntax
  | ErrRange
  (* errors of the libraries (xml, base64, gzip, zlib) and of the storage *)
  | LibError (code : nat)
  | IOError (code : nat)
  (* run-time panic *)
  | Panic.

Inductive result (A : Type) : Type :=
  | Ok (a : A)
  | Err (e : error).
Arguments Ok {A} a.
Arguments Err {A} e.

Definition bind {A B} (r : result A) (k : A -> result B) : result B :=
  match r with
  | Ok a => k a
  | Err e => Err e
  end.

Notation "'do' x <- r ;; k" := (bind r (fun x => k))
  (at level 10, x name, r at level 99, k at level 200).

(** ** Constants and machine integers *)

Definition uint8 (z : Z) : Z := z mod 2 ^ 8.
Definition uint16 (z : Z) : Z := z mod 2 ^ 16.
Definition uint32 (z : Z) : Z := z mod 2 ^ 32.

Definition GIDHorizontalFlip : Z := 0x80000000.
Definition GIDVerticalFlip : Z := 0x40000000.
Definition GIDDiagonalFlip : Z := 0x20000000.
Definition GIDFlip : Z :=
  Z.lor (Z.lor GIDHorizontalFlip GIDVerticalFlip) GIDDiagonalFlip.
Definition GIDMask : Z := 0x0fffffff.

(** ** Data model (tmx.go) *)

Definition addr := nat.

Record Property := mkProperty {
  Property_Name : string;
  Property_Value : string
}.

Record Properties := mkProperties {
  Properties_Properties : list Property
}.

Record Tile := mkTile {
  Tile_ID : Z
}.

Record Tileset := mkTileset {
  FirstGID : Z;
  Tileset_Name : string;
  Tileset_Properties : Properties;
  Tiles : list Tile
}.

Record DataTile := mkDataTile {
  DataTile_GID : Z
}.

Record Data := mkData {
  Encoding : string;
  Compression : string;
  RawData : string;
  DataTiles : list DataTile
}.

Record DecodedTile := mkDecodedTile {
  ID : Z;
  Tileset_of : option nat;
  HorizontalFlip : bool;
  VerticalFlip : bool;
  Nil : bool
}.

Record Layer := mkLayer {
  Layer_Name : string;
  Layer_Properties : Properties;
  Layer_Data : Data;
  GIDs : list Z;
  DecodedTiles : list DecodedTile;
  Layer_Tileset : option nat;
  Empty : bool
}.

Record Map := mkMap {
  Width : Z;
  Height : Z;
  Map_Properties : Properties;
  Tilesets : list Tileset;
  Layers : list Layer
}.

(** [var NilTile = &DecodedTile{Nil: false}] *)
Definition NilTile : DecodedTile :=
  {| ID := 0; Tileset_of := None;
     HorizontalFlip := false; VerticalFlip := false; Nil := false |}.

Definition IsNil (t : DecodedTile) : bool := Nil t.

(** ** The GID resolver *)

(** The loop [for i := len(m.Tilesets) - 1; i >= 0; i--] of [DecodeGID];
    [n] is [i + 1]. *)
Fixpoint DecodeGID_scan (m : Map) (gid gidBare : Z) (n : nat)
  : result DecodedTile :=
  match n with
  | O => Err InvalidGID
  | S i =>
      match Tilesets m !! i with
      | None => Err Panic
      | Some ts =>
          if FirstGID ts <=? gidBare then
            Ok {| ID := uint32 (gidBare - FirstGID ts);
                  Tileset_of := Some i;
                  HorizontalFlip := negb (Z.land gid GIDHorizontalFlip =? 0);
                  VerticalFlip := negb (Z.land gid GIDVerticalFlip =? 0);
                  Nil := false |}
          else DecodeGID_scan m gid gidBare i
      end
  end.

Definition DecodeGID (m : Map) (gid : Z) : result DecodedTile :=
  if gid =? 0 then Ok NilTile
  else
    let gidBare := Z.ldiff gid GIDFlip in
    DecodeGID_scan m gid gidBare (length (Tilesets m)).

(** ** The layer payload decoder *)

(** The Go standard library as [Data.decodeBase64] uses it: readers are
    abstract, [ReadAll] is [ioutil.ReadAll]. *)
Class Codec := {
  Reader : Type;
  TrimSpace : string -> string;
  NewReader : string -> Reader;
  base64_NewDecoder : Reader -> Reader;
  gzip_NewReader : Reader -> result Reader;
  zlib_NewReader : Reader -> result Reader;
  ReadAll : Reader -> result (list byte)
}.

Definition decodeBase64 `{Codec} (d : Data) : result (list byte) :=
  let rawData := TrimSpace (RawData d) in
  let r := NewReader rawData in
  let encr := base64_NewDecoder r in
  do comr <- (if String.eqb (Compression d) "gzip" then gzip_NewReader encr
           else if String.eqb (Compression d) "zlib" then zlib_NewReader encr
           else if String.eqb (Compression d) "" then Ok encr
           else Err UnknownCompression) ;;
  ReadAll comr.

Definition is_digit (c : ascii) : bool :=
  (48 <=? nat_of_ascii c)%nat && (nat_of_ascii c <=? 57)%nat.

(** [cleaner] returns the rune itself (true) or -1 (false, dropped). *)
Definition cleaner (r : ascii) : bool :=
  is_digit r || Ascii.eqb r ","%char.

(** [strings.Map(cleaner, s)]: a byte other than a digit or a comma is, or
    is part of, a rune that [cleaner] drops. *)
Fixpoint strings_Map_cleaner (s : string) : string :=
  match s with
  | EmptyString => EmptyString
  | String c s' =>
      if cleaner c then String c (strings_Map_cleaner s')
      else strings_Map_cleaner s'
  end.

(** [strings.Split(s, ",")] *)
Fixpoint Split_comma (s : string) : list string :=
  match s with
  | EmptyString => [EmptyString]
  | String c s' =>
      if Ascii.eqb c ","%char then EmptyString :: Split_comma s'
      else match Split_comma s' with
           | [] => [String c EmptyString]
           | h :: t => String c h :: t
           end
  end.

Fixpoint ParseUint_digits (s : string) (maxVal n : Z) : result Z :=
  match s with
  | EmptyString => Ok n
  | String c s' =>
      if is_digit c then
        let n1 := n * 10 + (Z.of_nat (nat_of_ascii c) - 48) in
        if maxVal <? n1 then Err ErrRange
        else ParseUint_digits s' maxVal n1
      else Err ErrSyntax
  end.

(** [strconv.ParseUint(s, 10, bitSize)] *)
Definition ParseUint (s : string) (bitSize : Z) : result Z :=
  match s with
  | EmptyString => Err ErrSyntax
  | _ => ParseUint_digits s (2 ^ bitSize - 1) 0
  end.

Fixpoint decodeCSV_loop (str : list string) : result (list Z) :=
  match str with
  | [] => Ok []
  | s :: rest =>
      do d <- ParseUint s 32 ;;
      do decoded <- decodeCSV_loop rest ;;
      Ok (uint32 d :: decoded)
  end.

Definition decodeCSV (d : Data) : result (list Z) :=
  let rawDataClean := strings_Map_cleaner (RawData d) in
  let str := Split_comma rawDataClean in
  decodeCSV_loop str.

Definition set_GIDs (l : Layer) (gids : list Z) : Layer :=
  {| Layer_Name := Layer_Name l; Layer_Properties := Layer_Properties l;
     Layer_Data := Layer_Data l; GIDs := gids;
     DecodedTiles := DecodedTiles l; Layer_Tileset := Layer_Tileset l;
     Empty := Empty l |}.

Definition set_DecodedTiles (l : Layer) (tiles : list DecodedTile) : Layer :=
  {| Layer_Name := Layer_Name l; Layer_Properties := Layer_Properties l;
     Layer_Data := Layer_Data l; GIDs := GIDs l;
     DecodedTiles := tiles; Layer_Tileset := Layer_Tileset l;
     Empty := Empty l |}.

Definition set_Empty_Tileset (l : Layer) (isEmpty : bool)
    (tileset : option nat) : Layer :=
  {| Layer_Name := Layer_Name l; Layer_Properties := Layer_Properties l;
     Layer_Data := Layer_Data l; GIDs := GIDs l;
     DecodedTiles := DecodedTiles l; Layer_Tileset := tileset;
     Empty := isEmpty |}.

Definition decodeLayerXML (m : Map) (l : Layer) : result Layer :=
  if negb (Z.of_nat (length (DataTiles (Layer_Data l)))
           =? Width m * Height m)
  then Err InvalidDecodedDataLen
  else Ok (set_GIDs l (map DataTile_GID (DataTiles (Layer_Data l)))).

Definition decodeLayerCSV (m : Map) (l : Layer) : result Layer :=
  do gids <- decodeCSV (Layer_Data l) ;;
  if negb (Z.of_nat (length gids) =? Width m * Height m)
  then Err InvalidDecodedDataLen
  else Ok (set_GIDs l gids).

(** A counted loop [for k := lo; k < lo + n; k++] whose body may return. *)
Fixpoint for_range {S R : Type} (lo n : nat)
    (body : nat -> S -> option R * S) (s : S) : option R * S :=
  match n with
  | O => (None, s)
  | Datatypes.S n' =>
      match body lo s with
      | (Some r, s') => (Some r, s')
      | (None, s') => for_range (Datatypes.S lo) n' body s'
      end
  end.

Definition byte_Z (b : byte) : Z := Z.of_N (Byte.to_N b).

(** The body of the inner loop of [decodeLayerBase64]; the state is
    [(j, l.GIDs)]. *)
Definition decodeLayerBase64_body (m : Map) (dataBytes : list byte)
    (y x : nat) (st : nat * list Z) : option error * (nat * list Z) :=
  let '(j, gids) := st in
  match dataBytes !! j, dataBytes !! (j + 1)%nat,
        dataBytes !! (j + 2)%nat, dataBytes !! (j + 3)%nat with
  | Some b0, Some b1, Some b2, Some b3 =>
      let gid :=
        uint32 (uint32 (uint32 (byte_Z b0 + uint32 (Z.shiftl (byte_Z b1) 8))
                        + uint32 (Z.shiftl (byte_Z b2) 16))
                + uint32 (Z.shiftl (byte_Z b3) 24)) in
      let idx := Z.of_nat y * Width m + Z.of_nat x in
      if (0 <=? idx) && (idx <? Z.of_nat (length gids))
      then (None, ((j + 4)%nat, <[Z.to_nat idx := gid]> gids))
      else (Some Panic, st)
  | _, _, _, _ => (Some Panic, st)
  end.

Definition decodeLayerBase64 `{Codec} (m : Map) (l : Layer) : result Layer :=
  do dataBytes <- decodeBase64 (Layer_Data l) ;;
  if negb (Z.of_nat (length dataBytes) =? Width m * Height m * 4)
  then Err InvalidDecodedDataLen
  else
    let gids0 := replicate (Z.to_nat (Width m * Height m)) 0 in
    match for_range 0 (Z.to_nat (Height m))
            (fun y => for_range 0 (Z.to_nat (Width m))
                        (decodeLayerBase64_body m dataBytes y))
            (0%nat, gids0) with
    | (Some e, _) => Err e
    | (None, (_, gids)) => Ok (set_GIDs l gids)
    end.

Definition decodeLayer `{Codec} (m : Map) (l : Layer) : result Layer :=
  if String.eqb (Encoding (Layer_Data l)) "csv" then decodeLayerCSV m l
  else if String.eqb (Encoding (Layer_Data l)) "base64"
       then decodeLayerBase64 m l
  else if String.eqb (Encoding (Layer_Data l)) "" then decodeLayerXML m l
  else Err UnknownEncoding.

Fixpoint decodeLayers_loop `{Codec} (m : Map) (ls : list Layer)
  : result (list Layer) :=
  match ls with
  | [] => Ok []
  | l :: rest =>
      do l' <- decodeLayer m l ;;
      do rest' <- decodeLayers_loop m rest ;;
      Ok (l' :: rest')
  end.

Definition set_Layers (m : Map) (ls : list Layer) : Map :=
  {| Width := Width m; Height := Height m;
     Map_Properties := Map_Properties m; Tilesets := Tilesets m;
     Layers := ls |}.

Definition decodeLayers `{Codec} (m : Map) : result Map :=
  do ls <- decodeLayers_loop m (Layers m) ;;
  Ok (set_Layers m ls).

(** ** Tileset inference *)

Fixpoint getTileset_loop (tiles : list DecodedTile) (tileset : option nat)
  : option nat * bool :=
  match tiles with
  | [] => (tileset, false)
  | tile :: rest =>
      if negb (Nil tile) then
        match tileset with
        | None => getTileset_loop rest (Tileset_of tile)
        | Some _ =>
            if bool_decide (tileset <> Tileset_of tile) then (tileset, true)
            else getTileset_loop rest tileset
        end
      else getTileset_loop rest tileset
  end.

(** Returns [(tileset, isEmpty, usesMultipleTilesets)]. *)
Definition getTileset (m : Map) (l : Layer) : option nat * bool * bool :=
  match getTileset_loop (DecodedTiles l) None with
  | (tileset, true) => (tileset, false, true)
  | (None, false) => (None, true, false)
  | (Some t, false) => (Some t, false, false)
  end.

Fixpoint DecodeGIDs (m : Map) (gids : list Z) : result (list DecodedTile) :=
  match gids with
  | [] => Ok []
  | gid :: rest =>
      do t <- DecodeGID m gid ;;
      do ts <- DecodeGIDs m rest ;;
      Ok (t :: ts)
  end.

Fixpoint Read_decode (m : Map) (ls : list Layer) : result (list Layer) :=
  match ls with
  | [] => Ok []
  | l :: rest =>
      do tiles <- DecodeGIDs m (GIDs l) ;;
      do rest' <- Read_decode m rest ;;
      Ok (set_DecodedTiles l tiles :: rest')
  end.

Definition Read_infer (m : Map) (l : Layer) : Layer :=
  match getTileset m l with
  | (_, _, true) => l
  | (tileset, isEmpty, false) => set_Empty_Tileset l isEmpty tileset
  end.

(** [Read]; the argument is the outcome of [d.Decode(m)], the map as the XML
    decoder leaves it. *)
Definition Read `{Codec} (decoded : result Map) : result Map :=
  do m <- decoded ;;
  do m <- decodeLayers m ;;
  do ls <- Read_decode m (Layers m) ;;
  Ok (set_Layers m (map (Read_infer m) ls)).

(** ** Property lookup *)

(** [Properties.Get] *)
Fixpoint Properties_Get_loop (props : list Property) (name : string)
  : list string :=
  match props with
  | [] => []
  | prop :: rest =>
      if String.eqb (Property_Name prop) name
      then Property_Value prop :: Properties_Get_loop rest name
      else Properties_Get_loop rest name
  end.

Definition Properties_Get (p : Properties) (name : string) : list string :=
  Properties_Get_loop (Properties_Properties p) name.

(** [GetProperty(properties []tmx.Property, name string)], the lookup of the
    exporter [Do].  The result is Go's pair [(value, err)]. *)
Module OfSlice.
Definition GetProperty (properties : list Property) (name : string)
  : string * option error :=
  let values := Properties_Get_loop properties name in
  if (1 <? length values)%nat then ("", Some PropertyNotUnique)
  else if (length values =? 0)%nat then ("", Some PropertyUnavailable)
  else match values with
       | v :: _ => (v, None)
       | [] => ("", Some Panic)
       end.
End OfSlice.

(** [GetProperty(p *tmx.Properties, name string)], the lookup of the GBA
    target.  Its second test is [len(value) == 0], on the result string
    [value], which is still empty there. *)
Module OfProperties.
Definition GetProperty (p : Properties) (name : string)
  : string * option error :=
  let value := "" in
  let values := Properties_Get p name in
  if (1 <? length values)%nat then (value, Some PropertyNotUnique)
  else if (String.length value =? 0)%nat
       then (value, Some PropertyUnavailable)
  else match values with
       | v :: _ => (v, None)
       | [] => (value, Some Panic)
       end.
End OfProperties.

(** ** The export pipeline *)

(** The value [interface{}] that [ScreenblockEntry] returns. *)
Inductive entry : Type :=
  | U8 (v : Z)
  | U16 (v : Z).

Inductive ByteOrder : Type :=
  | LittleEndian
  | BigEndian.

Class Console (C : Type) := {
  MaxTiles : Map -> addr -> Layer -> C -> Z * C;
  ScreenblockEntry :
    Map -> addr -> Layer -> DecodedTile -> C -> result entry * C;
  ByteOrder_of : C -> ByteOrder
}.

(** [io.WriteCloser]; a byte is a [Z] in [0, 256). *)
Class WriteCloser (W : Type) := {
  Write : list Z -> W -> option error * W;
  Close : W -> W
}.

Inductive Method : Type :=
  | LZ77
  | RLE
  | Huffman4
  | Huffman8.

(** Package gbacomp: [Compressor_Close] flushes into the wrapped writer and
    yields it. *)
Class Gbacomp (W : Type) := {
  Compressor : Type;
  NewCompressor : W -> Method -> Compressor;
  Compressor_Write : list Z -> Compressor -> option error * Compressor;
  Compressor_Close : Compressor -> W
}.

Definition CompressionMethods : gmap string Method :=
  <["LZ77" := LZ77]> (<["RLE" := RLE]> (<["Huffman4" := Huffman4]>
    (<["Huffman8" := Huffman8]> ∅))).

(** The bytes that [binary.Write] hands to the writer. *)
Definition encode (order : ByteOrder) (tile : entry) : list Z :=
  match tile with
  | U8 v => [uint8 v]
  | U16 v =>
      match order with
      | LittleEndian => [uint16 v mod 256; uint16 v / 256]
      | BigEndian => [uint16 v / 256; uint16 v mod 256]
      end
  end.

Section Exporter.
Context {C : Type} `{Console C}.

(** The loop of [saveLayer] over a writer [b] with write function [wr];
    the state is [(i, b, c)].  The error of [binary.Write] is assigned to
    [err] and the loop goes on. *)
Definition saveLayer_body {B : Type}
    (wr : list Z -> B -> option error * B)
    (m : Map) (la : addr) (l : Layer) (_ : nat) (st : nat * B * C)
  : option error * (nat * B * C) :=
  let '(i, b, c) := st in
  match DecodedTiles l !! i with
  | None => (Some Panic, st)
  | Some t =>
      match ScreenblockEntry m la l t c with
      | (Err e, c') => (Some e, (i, b, c'))
      | (Ok tile, c') =>
          let '(_, b') := wr (encode (ByteOrder_of c') tile) b in
          (None, (Datatypes.S i, b', c'))
      end
  end.

Definition saveLayer_loop {B : Type}
    (wr : list Z -> B -> option error * B)
    (m : Map) (la : addr) (l : Layer) (b : B) (c : C)
  : option error * (nat * B * C) :=
  for_range 0 (Z.to_nat (Height m))
    (fun y => for_range 0 (Z.to_nat (Width m))
                (saveLayer_body wr m la l))
    (0%nat, b, c).

Context {W : Type} `{WriteCloser W} `{Gbacomp W}.

(** [saveLayer]: the error returned, the writer after the deferred
    [Close] calls, the console. *)
Definition saveLayer (m : Map) (la : addr) (l : Layer) (w : W) (c : C)
  : option error * W * C :=
  match Layer_Tileset l with
  | None =>
      if Empty l then (Some EmptyLayer, Close w, c)
      else (Some MultipleTilesets, Close w, c)
  | Some ti =>
      match Tilesets m !! ti with
      | None => (Some Panic, Close w, c)
      | Some tileset =>
          let '(maxTiles, c1) := MaxTiles m la l c in
          if maxTiles <? Z.of_nat (length (Tiles tileset))
          then (Some TooManyTiles, Close w, c1)
          else
            let compression :=
              fst (OfSlice.GetProperty
                     (Properties_Properties (Layer_Properties l))
                     "Compression") in
            if negb (String.eqb compression "") then
              match CompressionMethods !! compression with
              | None => (Some InvalidCompressionMethod, Close w, c1)
              | Some compressionMethod =>
                  let b := NewCompressor w compressionMethod in
                  let '(err, (_, b', c2)) :=
                    saveLayer_loop Compressor_Write m la l b c1 in
                  (err, Close (Compressor_Close b'), c2)
              end
            else
              let '(err, (_, w', c2)) := saveLayer_loop Write m la l w c1 in
              (err, Close w', c2)
      end
  end.

(** The loop of [saveLayerBitmap]; the state is [(i, d, w)]. *)
Definition saveLayerBitmap_body (l : Layer) (_ : nat) (st : Z * Z * W)
  : option error * (Z * Z * W) :=
  let '(i, d, w) := st in
  match DecodedTiles l !! Z.to_nat i with
  | None => (Some Panic, st)
  | Some t =>
      let d := if Bool.eqb (Nil t) false
               then uint8 (Z.lor d (uint8 (Z.shiftl 1 i))) else d in
      let i := i + 1 in
      if Z.land i 7 =? 0 then
        match Write [d] w with
        | (Some err, w') => (Some err, (i, d, w'))
        | (None, w') => (None, (0, d, w'))
        end
      else (None, (i, d, w))
  end.

Definition saveLayerBitmap (m : Map) (l : Layer) (w : W)
  : option error * W :=
  let '(err, (_, _, w')) :=
    for_range 0 (Z.to_nat (Height m))
      (fun y => for_range 0 (Z.to_nat (Width m)) (saveLayerBitmap_body l))
      (0, 0, w) in
  (err, Close w').

(** The body of the loop of [Do] over the layers, once the layer's file
    [f] is open. *)
Definition Do_layer (m : Map) (la : addr) (l : Layer) (f : W) (c : C)
  : option error * W * C :=
  let bitmap :=
    fst (OfSlice.GetProperty
           (Properties_Properties (Layer_Properties l)) "Bitmap") in
  if String.eqb bitmap "true" then
    let '(err, f') := saveLayerBitmap m l f in (err, f', c)
  else saveLayer m la l f c.
End Exporter.

(** ** The GBA target (gba.go) *)

Definition GBAHFlip : Z := Z.shiftl 1 10.
Definition GBAVFlip : Z := Z.shiftl 1 11.

(** A nil cache reads as the empty one and is made before its first
    write. *)
Record GBA := mkGBA {
  isAffineCache : gmap addr bool;
  nilTileCache : gmap addr Z
}.

Definition isAffine (la : addr) (l : Layer) (g : GBA) : bool * GBA :=
  match isAffineCache g !! la with
  | Some affine => (affine, g)
  | None =>
      let affineString :=
        fst (OfProperties.GetProperty (Layer_Properties l) "Affine") in
      let affine := String.eqb affineString "true" in
      (affine, {| isAffineCache := <[la := affine]> (isAffineCache g);
                  nilTileCache := nilTileCache g |})
  end.

Definition GBA_MaxTiles (m : Map) (la : addr) (l : Layer) (g : GBA)
  : Z * GBA :=
  let '(affine, g) := isAffine la l g in
  if affine then (255, g) else (511, g).

(** [nilTile]: on a cache miss the value stored in the cache is the inner
    [nilTile], declared by [:=] inside the [if]; the outer [nilTile] keeps
    the zero value of the failed lookup. *)
Definition nilTile (m : Map) (la : addr) (l : Layer) (g : GBA)
  : result entry * GBA :=
  let outer := default 0 (nilTileCache g !! la) in
  let miss :=
    match nilTileCache g !! la with
    | Some _ => Ok g
    | None =>
        match Layer_Tileset l ≫= (fun ti => Tilesets m !! ti) with
        | None => Err Panic
        | Some tileset =>
            let inner := uint16 (Z.of_nat (length (Tiles tileset))) in
            let nilTileString :=
              fst (OfProperties.GetProperty (Layer_Properties l) "NilTile") in
            let inner :=
              match ParseUint nilTileString 16 with
              | Ok nilTileNew => uint16 nilTileNew
              | Err _ => inner
              end in
            Ok {| isAffineCache := isAffineCache g;
                  nilTileCache := <[la := inner]> (nilTileCache g) |}
        end
    end in
  match miss with
  | Err e => (Err e, g)
  | Ok g =>
      let '(affine, g) := isAffine la l g in
      if affine then (Ok (U8 (uint8 outer)), g) else (Ok (U16 outer), g)
  end.

Definition GBA_ScreenblockEntry (m : Map) (la : addr) (l : Layer)
    (tile : DecodedTile) (g : GBA) : result entry * GBA :=
  let '(affine, g) := isAffine la l g in
  let rval (v : Z) := if affine then U8 (uint8 v) else U16 (uint16 v) in
  if IsNil tile then nilTile m la l g
  else
    let tid := uint16 (ID tile) in
    if affine then (Ok (rval tid), g)
    else
      let tid := if HorizontalFlip tile then Z.lor tid GBAHFlip else tid in
      let tid := if VerticalFlip tile then Z.lor tid GBAVFlip else tid in
      (Ok (rval tid), g).

#[export] Instance GBA_Console : Console GBA := {
  MaxTiles := GBA_MaxTiles;
  ScreenblockEntry := GBA_ScreenblockEntry;
  ByteOrder_of := fun _ => LittleEndian
}.

Definition GBA_new : GBA := {| isAffineCache := ∅; nilTileCache := ∅ |}.

(** ** A concrete writer and fixtures for the closed examples *)

(** A file with room for [room] more [Write] calls; a call beyond that fails
    with an I/O error and writes nothing. *)
Record Sink := mkSink {
  written : list Z;
  room : nat;
  closed : bool
}.

#[export] Instance Sink_WriteCloser : WriteCloser Sink := {
  Write := fun bs s =>
    match room s with
    | O => (Some (IOError 28), s)
    | Datatypes.S n =>
        (None, {| written := written s ++ bs; room := n;
                  closed := closed s |})
    end;
  Close := fun s =>
    {| written := written s; room := room s; closed := true |}
}.

(** A stand-in for gbacomp that stores the data as it comes; the examples
    below set no [Compression] property. *)
#[export] Instance Sink_Gbacomp : Gbacomp Sink := {
  Compressor := Sink;
  NewCompressor := fun w _ => w;
  Compressor_Write := Write;
  Compressor_Close := fun b => b
}.

Definition no_Properties : Properties := mkProperties [].

Definition no_Data : Data := mkData "" "" "" [].

(** A tileset with first id [first] and [n] tiles. *)
Definition tileset_of_size (first : Z) (n : nat) : Tileset :=
  mkTileset first "tiles" no_Properties
    (map (fun k => mkTile (Z.of_nat k)) (seq 0 n)).

Definition map_of_tilesets (tss : list Tileset) : Map :=
  mkMap 0 0 no_Properties tss [].

(** A stand-in for the codec that hands the payload on byte for byte. *)
#[export] Instance verbatim_Codec : Codec := {
  Reader := string;
  TrimSpace := fun s => s;
  NewReader := fun s => s;
  base64_NewDecoder := fun r => r;
  gzip_NewReader := fun r => Ok r;
  zlib_NewReader := fun r => Ok r;
  ReadAll := fun r => Ok (list_byte_of_string r)
}.

(** A cell whose flag [Nil] is set, and a cell of tileset [k]. *)
Definition nil_cell : DecodedTile :=
  {| ID := 0; Tileset_of := None;
     HorizontalFlip := false; VerticalFlip := false; Nil := true |}.

Definition cell (k : nat) (id : Z) : DecodedTile :=
  {| ID := id; Tileset_of := Some k;
     HorizontalFlip := false; VerticalFlip := false; Nil := false |}.

(** A layer as [Read] leaves it, given its properties and derived fields. *)
Definition layer_of (props : list Property) (tiles : list DecodedTile)
    (tileset : option nat) (isEmpty : bool) : Layer :=
  mkLayer "BG0" (mkProperties props) no_Data [] tiles tileset isEmpty.

(** A layer as the XML decoder leaves it, with a csv payload. *)
Definition csv_layer (payload : string) : Layer :=
  mkLayer "BG0" no_Properties (mkData "csv" "" payload []) [] [] None false.

Definition grid (w h : Z) (tss : list Tileset) (ls : list Layer) : Map :=
  mkMap w h no_Properties tss ls.

Definition empty_file (room : nat) : Sink := mkSink [] room false.

(** ** Claims in the words of the specification *)

(** Tilesets sorted by first id, with ranges [[f, f + count T)] that do not
    overlap.  The source's [Tileset] has no tile count of its own; [count]
    assigns one. *)
Fixpoint sorted_ranges (count : Tileset -> Z) (tss : list Tileset) : bool :=
  match tss with
  | [] => true
  | T :: rest =>
      forallb (fun Tj => FirstGID T + count T <=? FirstGID Tj) rest
      && sorted_ranges count rest
  end.

(** The resolver claim as the specification words it: every bare id of a
    tileset's range, under every combination of flip bits. *)
Definition resolver_claim_as_stated : Prop :=
  forall (count : Tileset -> Z) (m : Map) (k : nat) (T : Tileset)
         (gid g : Z),
    sorted_ranges count (Tilesets m) = true ->
    Tilesets m !! k = Some T ->
    0 <= FirstGID T ->
    0 <= gid < 2 ^ 32 ->
    Z.ldiff gid GIDFlip = g ->
    FirstGID T <= g < FirstGID T + count T ->
    DecodeGID m gid =
      Ok {| ID := g - FirstGID T; Tileset_of := Some k;
            HorizontalFlip := Z.testbit gid 31;
            VerticalFlip := Z.testbit gid 30; Nil := false |}.

(** The unsigned 32-bit integer with the little-endian bytes
    [b0 b1 b2 b3]. *)
Definition little_endian_uint32 (b0 b1 b2 b3 : byte) : Z :=
  byte_Z b0 + 2 ^ 8 * byte_Z b1 + 2 ^ 16 * byte_Z b2 + 2 ^ 24 * byte_Z b3.

(** Cell [k] of [gids] holds the little-endian value of the bytes
    [4k .. 4k+3]. *)
Definition cell_decoded (dataBytes : list byte) (gids : list Z) (k : nat)
  : Prop :=
  exists b0 b1 b2 b3 : byte,
    dataBytes !! (4 * k)%nat = Some b0 /\
    dataBytes !! (4 * k + 1)%nat = Some b1 /\
    dataBytes !! (4 * k + 2)%nat = Some b2 /\
    dataBytes !! (4 * k + 3)%nat = Some b3 /\
    gids !! k = Some (little_endian_uint32 b0 b1 b2 b3).

(** The bit that cell [t] contributes in bitmap mode, and the bits of the
    cells below [j]. *)
Definition cell_bit (cells : list DecodedTile) (t : nat) : Z :=
  match cells !! t with
  | Some c => if Nil c then 0 else 2 ^ Z.of_nat t
  | None => 0
  end.

Fixpoint bits_below (cells : list DecodedTile) (j : nat) : Z :=
  match j with
  | O => 0
  | Datatypes.S j' => Z.lor (bits_below cells j') (cell_bit cells j')
  end.

(** The bitmap as the specification words it: bit [j] of byte [i] is set
    when cell [8*i + j] is not nil; [ceil(n / 8)] bytes for [n] cells. *)
Definition bitmap_bit (cells : list DecodedTile) (i j : nat) : Z :=
  match cells !! (8 * i + j)%nat with
  | Some c => if Nil c then 0 else 2 ^ Z.of_nat j
  | None => 0
  end.

Definition bitmap_as_specified (cells : list DecodedTile) : list Z :=
  map (fun i => fold_right Z.lor 0 (map (bitmap_bit cells i) (seq 0 8)))
      (seq 0 ((length cells + 7) / 8)).

(** The export preconditions as the specification words them: for every
    exported layer, whichever the mode. *)
Definition export_preconditions_claim_as_stated : Prop :=
  forall (C W : Type) (HC : Console C) (HW : WriteCloser W)
         (HG : Gbacomp W) (m : Map) (la : addr) (l : Layer) (w : W) (c : C),
    (Layer_Tileset l = None -> Empty l = true ->
     exists c', Do_layer m la l w c = (Some EmptyLayer, Close w, c')) /\
    (Layer_Tileset l = None -> Empty l = false ->
     exists c', Do_layer m la l w c = (Some MultipleTilesets, Close w, c')) /\
    (forall (ti : nat) (tileset : Tileset),
       Layer_Tileset l = Some ti -> Tilesets m !! ti = Some tileset ->
       fst (MaxTiles m la l c) < Z.of_nat (length (Tiles tileset)) ->
       exists c', Do_layer m la l w c = (Some TooManyTiles, Close w, c')).

(** ** Payloads in csv form *)

Fixpoint count_commas (s : string) : nat :=
  match s with
  | EmptyString => O
  | String c s' =>
      if Ascii.eqb c ","%char then Datatypes.S (count_commas s')
      else count_commas s'
  end.

Fixpoint string_forall (P : ascii -> bool) (s : string) : bool :=
  match s with
  | EmptyString => true
  | String c s' => P c && string_forall P s'
  end.

(** The decimal numeral of [n], written from the right; nothing in the
    source prints ids, this is the writer that [decodeCSV] is read
    against. *)
Definition digit_char (k : Z) : ascii := ascii_of_nat (48 + Z.to_nat k).

Fixpoint FormatUint_digits (fuel : nat) (n : Z) (acc : string) : string :=
  match fuel with
  | O => acc
  | Datatypes.S fuel' =>
      let acc' := String (digit_char (n mod 10)) acc in
      if n <? 10 then acc' else FormatUint_digits fuel' (n / 10) acc'
  end.

Definition FormatUint (n : Z) : string := FormatUint_digits 10 n "".

Fixpoint Join_comma (strs : list string) : string :=
  match strs with
  | [] => ""
  | [s] => s
  | s :: rest => (s ++ String ","%char (Join_comma rest))%string
  end.

Definition csv_Data (payload : string) : Data := mkData "csv" "" payload [].

(** ** The GBA target's cache *)

(** No layer is cached as affine. *)
Definition never_affine (g : GBA) : Prop :=
  forall (la : addr) (b : bool), isAffineCache g !! la = Some b -> b = false.

(** ** Object shapes and file names *)

Record Point := mkPoint {
  Point_X : Z;
  Point_Y : Z
}.

(** [strings.Split(s, sep)] for a separator of one character. *)
Fixpoint Split (sep : ascii) (s : string) : list string :=
  match s with
  | EmptyString => [EmptyString]
  | String c s' =>
      if Ascii.eqb c sep then EmptyString :: Split sep s'
      else match Split sep s' with
           | [] => [String c EmptyString]
           | h :: t => String c h :: t
           end
  end.

(** [strconv.Atoi] of the Go library. *)
Class Strconv := {
  Atoi : string -> result Z
}.

(** The loop of [decodePoints]: both coordinates are read from
    [coordStrings[0]]. *)
Fixpoint decodePoints_loop `{Strconv} (pointStrings : list string)
  : result (list Point) :=
  match pointStrings with
  | [] => Ok []
  | pointString :: rest =>
      let coordStrings := Split ","%char pointString in
      if negb (length coordStrings =? 2)%nat then Err InvalidPointsField
      else
        match coordStrings with
        | [] => Err Panic
        | c0 :: _ =>
            do x <- Atoi c0 ;;
            do y <- Atoi c0 ;;
            do points <- decodePoints_loop rest ;;
            Ok ({| Point_X := x; Point_Y := y |} :: points)
        end
  end.

Definition decodePoints `{Strconv} (s : string) : result (list Point) :=
  decodePoints_loop (Split " "%char s).

Definition TMXExt : string := ".tmx".

(** [filepath.Ext] of the Go library. *)
Class Filepath := {
  Ext : string -> string
}.

(** The name of the file that [Do] opens for the layer [layerName] of
    [filename]; slicing at a negative bound panics. *)
Definition Do_layer_file `{Filepath} (filename layerName : string)
  : result string :=
  let ext := Ext filename in
  if negb (String.eqb ext TMXExt) then Err WrongFileExtension
  else
    let bound := Z.of_nat (String.length filename)
                 - Z.of_nat (String.length ext) - 1 in
    if bound <? 0 then Err Panic
    else
      let filenameBare := substring 0 (Z.to_nat bound) filename in
      Ok (filenameBare ++ "." ++ layerName ++ ".layer")%string.

(** A stand-in for [strconv.Atoi] that reads unsigned decimal numerals. *)
#[export] Instance decimal_Strconv : Strconv := {
  Atoi := fun s => ParseUint s 63
}.

(** A stand-in for [filepath.Ext] that takes the last four characters. *)
#[export] Instance tmx_Filepath : Filepath := {
  Ext := fun path =>
    if (4 <=? String.length path)%nat
    then substring (String.length path - 4) 4 path else ""
}.

(** ** The resolver of the earlier revision *)

Definition NIL_TILE : Z := 0xffffffff.

(** The loop of [Map.id]; it ends in [panic("tmx: invalid GID")]. *)
Fixpoint Map_id_scan (m : Map) (gid gidBare : Z) (n : nat) : result Z :=
  match n with
  | O => Err Panic
  | Datatypes.S i =>
      match Tilesets m !! i with
      | None => Err Panic
      | Some ts =>
          if FirstGID ts <=? gidBare then
            Ok (Z.lor (uint32 (gidBare - FirstGID ts)) (Z.land gid GIDFlip))
          else Map_id_scan m gid gidBare i
      end
  end.

(** [func (m *Map) id(gid uint32) uint32] *)
Definition Map_id (m : Map) (gid : Z) : result Z :=
  let gidBare := Z.ldiff gid GIDFlip in
  if gidBare =? 0 then Ok NIL_TILE
  else Map_id_scan m gid gidBare (length (Tilesets m)).

(** * Properties *)

(** ** Counted loops *)

Lemma for_range_invariant {S R : Type} (Inv : nat -> S -> Prop)
    (body : nat -> S -> option R * S) (n lo : nat) (s : S) :
  Inv lo s ->
  (forall k s0, (lo <= k < lo + n)%nat -> Inv k s0 ->
     exists s1, body k s0 = (None, s1) /\ Inv (Datatypes.S k) s1) ->
  exists s', for_range lo n body s = (None, s') /\ Inv (lo + n)%nat s'.
Proof.
  revert lo s. induction n as [|n IH]; intros lo s Hinv Hstep.
  - exists s. rewrite Nat.add_0_r. split; [reflexivity|assumption].
  - simpl. destruct (Hstep lo s ltac:(lia) Hinv) as [s1 [Hbody Hinv1]].
    rewrite Hbody.
    destruct (IH (Datatypes.S lo) s1 Hinv1) as [s' [Hrun Hinv']].
    + intros k s0 Hk. apply Hstep. lia.
    + exists s'. split; [assumption|].
      replace (lo + Datatypes.S n)%nat with (Datatypes.S lo + n)%nat by lia.
      assumption.
Qed.

(** Two nested counted loops keep an invariant indexed by the number of
    iterations of the inner body. *)
Lemma for_range2_invariant {S R : Type} (Inv : nat -> S -> Prop)
    (body : nat -> nat -> S -> option R * S) (h w : nat) (s : S) :
  Inv 0%nat s ->
  (forall y x s0, (y < h)%nat -> (x < w)%nat -> Inv (y * w + x)%nat s0 ->
     exists s1, body y x s0 = (None, s1) /\
                Inv (Datatypes.S (y * w + x)) s1) ->
  exists s', for_range 0 h (fun y => for_range 0 w (body y)) s = (None, s')
             /\ Inv (h * w)%nat s'.
Proof.
  intros Hinit Hstep.
  apply (for_range_invariant (fun y st => Inv (y * w)%nat st)).
  - assumption.
  - intros y s0 Hy Hrow.
    destruct (for_range_invariant (fun x st => Inv (y * w + x)%nat st)
                (body y) w 0%nat s0) as [s1 [Hrun Hinv]].
    + rewrite Nat.add_0_r. assumption.
    + intros x s1 Hx Hcell. rewrite Nat.add_succ_r.
      apply Hstep; [lia|lia|assumption].
    + exists s1. split; [assumption|].
      replace (Datatypes.S y * w)%nat with (y * w + (0 + w))%nat by lia.
      assumption.
Qed.


(** ** Bit-level facts about GIDs *)

(** Decide the integer comparisons of the goal, then close it by linear
    arithmetic. *)
Ltac zcases :=
  repeat match goal with
         | |- context [?a <=? ?b] => destruct (Z.leb_spec a b)
         | |- context [?a <? ?b] => destruct (Z.ltb_spec a b)
         | |- context [?a =? ?b] => destruct (Z.eqb_spec a b)
         end;
  simpl; try reflexivity; try lia.

Lemma GIDFlip_shift : GIDFlip = Z.shiftl 7 29.
Proof. reflexivity. Qed.

Lemma testbit_above (a n k : Z) :
  0 <= a < 2 ^ k -> 0 <= k <= n -> Z.testbit a n = false.
Proof.
  intros Ha Hk.
  apply Z.testbit_false; [lia|].
  rewrite Z.div_small; [reflexivity|].
  split; [lia|].
  apply Z.lt_le_trans with (2 ^ k); [lia|].
  apply Z.pow_le_mono_r; lia.
Qed.

Lemma GIDFlip_bits (n : Z) :
  Z.testbit GIDFlip n = (29 <=? n) && (n <=? 31).
Proof.
  destruct (Z.ltb_spec n 29) as [Hlo|Hlo].
  - rewrite GIDFlip_shift.
    destruct (Z.ltb_spec n 0) as [Hneg|Hneg].
    + rewrite Z.testbit_neg_r by lia. zcases.
    + rewrite Z.shiftl_spec_low by lia. zcases.
  - destruct (Z.leb_spec n 31) as [Hhi|Hhi].
    + assert (n = 29 \/ n = 30 \/ n = 31) as [-> | [-> | ->]] by lia;
        reflexivity.
    + rewrite (testbit_above GIDFlip n 32); [zcases| |lia].
      replace GIDFlip with 3758096384 by reflexivity. lia.
Qed.

(** The bare id is the low 29 bits. *)
Lemma gidBare_mod (gid : Z) :
  0 <= gid < 2 ^ 32 -> Z.ldiff gid GIDFlip = gid mod 2 ^ 29.
Proof.
  intros Hgid. apply Z.bits_inj'. intros n Hn.
  rewrite Z.ldiff_spec, GIDFlip_bits.
  destruct (Z.ltb_spec n 29) as [Hlo|Hlo].
  - rewrite Z.mod_pow2_bits_low by lia.
    replace (29 <=? n) with false by zcases. simpl.
    apply andb_true_r.
  - rewrite Z.mod_pow2_bits_high by lia.
    destruct (Z.leb_spec n 31) as [Hhi|Hhi].
    + replace (29 <=? n) with true by zcases.
      replace (n <=? 31) with true by zcases. simpl. apply andb_false_r.
    + rewrite (testbit_above gid n 32) by lia. reflexivity.
Qed.

Lemma land_pow2_testbit (a n : Z) :
  0 <= n -> negb (Z.land a (2 ^ n) =? 0) = Z.testbit a n.
Proof.
  intros Hn. destruct (Z.testbit a n) eqn:Hbit.
  - destruct (Z.eqb_spec (Z.land a (2 ^ n)) 0) as [E|E]; [|reflexivity].
    assert (Hb : Z.testbit (Z.land a (2 ^ n)) n = true).
    { rewrite Z.land_spec, Hbit, Z.pow2_bits_true by lia. reflexivity. }
    rewrite E, Z.bits_0 in Hb. discriminate.
  - replace (Z.land a (2 ^ n)) with 0; [reflexivity|].
    symmetry. apply Z.bits_inj'. intros k Hk.
    rewrite Z.land_spec, Z.bits_0, Z.pow2_bits_eqb by lia.
    destruct (Z.eqb_spec n k) as [->|_].
    + rewrite Hbit. reflexivity.
    + apply andb_false_r.
Qed.

(** ** The GID resolver *)

Lemma DecodeGID_scan_flags (m : Map) (gid1 gid2 gidBare : Z) (n : nat) :
  Z.land gid1 GIDHorizontalFlip = Z.land gid2 GIDHorizontalFlip ->
  Z.land gid1 GIDVerticalFlip = Z.land gid2 GIDVerticalFlip ->
  DecodeGID_scan m gid1 gidBare n = DecodeGID_scan m gid2 gidBare n.
Proof.
  intros HH HV. induction n as [|i IH]; simpl; [reflexivity|].
  destruct (Tilesets m !! i) as [ts|]; [|reflexivity].
  rewrite HH, HV, IH. reflexivity.
Qed.

Lemma sorted_ranges_lookup (count : Tileset -> Z) (tss : list Tileset) :
  sorted_ranges count tss = true ->
  forall (i j : nat) (Ti Tj : Tileset),
    (i < j)%nat -> tss !! i = Some Ti -> tss !! j = Some Tj ->
    FirstGID Ti + count Ti <= FirstGID Tj.
Proof.
  induction tss as [|T rest IH]; intros Hs i j Ti Tj Hij Hi Hj.
  - discriminate.
  - simpl in Hs. apply andb_true_iff in Hs. destruct Hs as [Hhd Htl].
    destruct j as [|j]; [lia|]. simpl in Hj.
    destruct i as [|i]; simpl in Hi.
    + inversion Hi; subst Ti.
      rewrite forallb_forall in Hhd.
      apply Z.leb_le, Hhd.
      apply list_elem_of_In, list_elem_of_lookup. eauto.
    + apply (IH Htl i j); [lia|assumption|assumption].
Qed.

Lemma DecodeGID_scan_skip (m : Map) (gid g : Z) (k : nat) (n : nat) :
  (k < n)%nat -> (n <= length (Tilesets m))%nat ->
  (forall j Tj, (k < j)%nat -> Tilesets m !! j = Some Tj -> g < FirstGID Tj) ->
  DecodeGID_scan m gid g n = DecodeGID_scan m gid g (Datatypes.S k).
Proof.
  intros Hk Hn Hlater. induction n as [|i IH]; [lia|].
  destruct (Nat.eq_dec i k) as [->|Hne]; [reflexivity|].
  simpl. destruct (Tilesets m !! i) as [ts|] eqn:Hi.
  - specialize (Hlater i ts ltac:(lia) Hi).
    replace (FirstGID ts <=? g) with false by zcases.
    apply IH; lia.
  - apply lookup_ge_None in Hi. lia.
Qed.

(** C1 (code defect).  A raw id whose bare id is zero and whose horizontal
    flip bit is set is not resolved to the nil tile: [DecodeGID] tests the
    raw id, not the bare id, and the scan then fails with [InvalidGID].  The
    raw id 0 does yield the sentinel [NilTile], whose flag [Nil] is false. *)
Theorem DecodeGID_bare_zero_not_nil :
  Z.ldiff 0x80000000 GIDFlip = 0 /\
  DecodeGID (map_of_tilesets [tileset_of_size 1 4]) 0x80000000
    = Err InvalidGID /\
  DecodeGID (map_of_tilesets [tileset_of_size 1 4]) 0 = Ok NilTile /\
  IsNil NilTile = false.
Proof. repeat split. Qed.

(** C5 (amended).  In a map whose tilesets are sorted with non-overlapping
    ranges, a raw id whose bare id [g] is not 0 and lies in the range of the
    tileset [T] at index [k] resolves to [T], with local id [g - f] and the
    flip flags of bits 31 and 30 of the raw id. *)
Theorem DecodeGID_in_range (count : Tileset -> Z) (m : Map) (k : nat)
    (T : Tileset) (gid g : Z) :
  sorted_ranges count (Tilesets m) = true ->
  Tilesets m !! k = Some T ->
  0 <= FirstGID T ->
  0 <= gid < 2 ^ 32 ->
  Z.ldiff gid GIDFlip = g ->
  FirstGID T <= g < FirstGID T + count T ->
  g <> 0 ->
  DecodeGID m gid =
    Ok {| ID := g - FirstGID T; Tileset_of := Some k;
          HorizontalFlip := Z.testbit gid 31;
          VerticalFlip := Z.testbit gid 30; Nil := false |}.
Proof.
  intros Hsorted HT Hf Hgid Hbare Hrange Hnz.
  unfold DecodeGID.
  destruct (Z.eqb_spec gid 0) as [E|_].
  { subst gid. simpl in Hbare. congruence. }
  cbv zeta. rewrite Hbare.
  assert (Hk : (k < length (Tilesets m))%nat)
    by (apply lookup_lt_is_Some; eauto).
  rewrite (DecodeGID_scan_skip m gid g k (length (Tilesets m)));
    [|lia|lia|].
  - simpl. rewrite HT.
    replace (FirstGID T <=? g) with true by zcases.
    assert (Hg : 0 <= g < 2 ^ 29).
    { rewrite <- Hbare, gidBare_mod by lia.
      apply Z.mod_pos_bound. lia. }
    f_equal. f_equal.
    + unfold uint32. apply Z.mod_small. lia.
    + apply (land_pow2_testbit gid 31). lia.
    + apply (land_pow2_testbit gid 30). lia.
  - intros j Tj Hj HTj.
    pose proof (sorted_ranges_lookup count _ Hsorted k j T Tj Hj HT HTj).
    lia.
Qed.

Lemma DecodeGID_in_range_witness :
  DecodeGID (map_of_tilesets [tileset_of_size 1 4; tileset_of_size 5 8])
            0xC0000003
  = Ok {| ID := 2; Tileset_of := Some 0%nat; HorizontalFlip := true;
          VerticalFlip := true; Nil := false |}.
Proof.
  apply (DecodeGID_in_range (fun T => Z.of_nat (length (Tiles T)))
           (map_of_tilesets [tileset_of_size 1 4; tileset_of_size 5 8])
           0 (tileset_of_size 1 4) 0xC0000003 3).
  - reflexivity.
  - reflexivity.
  - vm_compute. discriminate.
  - lia.
  - reflexivity.
  - vm_compute. split; [discriminate | reflexivity].
  - discriminate.
Defined.

(** C5 as stated fails: a tileset whose first id is 0 owns the bare id 0,
    and the raw id 0 resolves to the sentinel [NilTile], not to that
    tileset. *)
Lemma resolver_claim_counterexample : ~ resolver_claim_as_stated.
Proof.
  intros Hclaim.
  specialize (Hclaim (fun _ => 1) (map_of_tilesets [tileset_of_size 0 1])
                0%nat (tileset_of_size 0 1) 0 0).
  assert (Habs : DecodeGID (map_of_tilesets [tileset_of_size 0 1]) 0 =
                 Ok {| ID := 0 - FirstGID (tileset_of_size 0 1);
                       Tileset_of := Some 0%nat;
                       HorizontalFlip := Z.testbit 0 31;
                       VerticalFlip := Z.testbit 0 30; Nil := false |}).
  { apply Hclaim.
    - reflexivity.
    - reflexivity.
    - simpl. lia.
    - lia.
    - reflexivity.
    - simpl. lia. }
  vm_compute in Habs. discriminate.
Qed.

(** C10.  For a raw id whose low 29 bits are not all zero, [DecodeGID]
    returns the same result with the diagonal flip bit (bit 29) set as with
    it clear. *)
Theorem DecodeGID_diagonal_flip_ignored (m : Map) (gid : Z) :
  0 <= gid < 2 ^ 32 ->
  Z.land gid (Z.ones 29) <> 0 ->
  DecodeGID m (Z.lor gid GIDDiagonalFlip)
  = DecodeGID m (Z.ldiff gid GIDDiagonalFlip).
Proof.
  intros Hgid Hlow. unfold DecodeGID.
  destruct (Z.eqb_spec (Z.lor gid GIDDiagonalFlip) 0) as [E|_].
  { apply Z.lor_eq_0_iff in E. destruct E as [_ E]. discriminate. }
  destruct (Z.eqb_spec (Z.ldiff gid GIDDiagonalFlip) 0) as [E|_].
  { exfalso. apply Hlow.
    replace (Z.ones 29) with (Z.land (Z.lnot GIDDiagonalFlip) (Z.ones 29))
      by reflexivity.
    rewrite Z.land_assoc, <- Z.ldiff_land, E. reflexivity. }
  cbv zeta.
  assert (Hbare : Z.ldiff (Z.lor gid GIDDiagonalFlip) GIDFlip
                  = Z.ldiff (Z.ldiff gid GIDDiagonalFlip) GIDFlip).
  { rewrite Z.ldiff_ldiff_l.
    replace (Z.lor GIDDiagonalFlip GIDFlip) with GIDFlip by reflexivity.
    rewrite !Z.ldiff_land, Z.land_lor_distr_l.
    replace (Z.land GIDDiagonalFlip (Z.lnot GIDFlip)) with 0 by reflexivity.
    apply Z.lor_0_r. }
  rewrite Hbare.
  apply DecodeGID_scan_flags.
  - rewrite Z.land_lor_distr_l, Z.ldiff_land, <- Z.land_assoc.
    replace (Z.land GIDDiagonalFlip GIDHorizontalFlip) with 0 by reflexivity.
    replace (Z.land (Z.lnot GIDDiagonalFlip) GIDHorizontalFlip)
      with GIDHorizontalFlip by reflexivity.
    apply Z.lor_0_r.
  - rewrite Z.land_lor_distr_l, Z.ldiff_land, <- Z.land_assoc.
    replace (Z.land GIDDiagonalFlip GIDVerticalFlip) with 0 by reflexivity.
    replace (Z.land (Z.lnot GIDDiagonalFlip) GIDVerticalFlip)
      with GIDVerticalFlip by reflexivity.
    apply Z.lor_0_r.
Qed.

Lemma DecodeGID_diagonal_flip_ignored_witness :
  DecodeGID (map_of_tilesets [tileset_of_size 1 4])
            (Z.lor 0x80000002 GIDDiagonalFlip)
  = DecodeGID (map_of_tilesets [tileset_of_size 1 4])
              (Z.ldiff 0x80000002 GIDDiagonalFlip).
Proof.
  apply (DecodeGID_diagonal_flip_ignored
           (map_of_tilesets [tileset_of_size 1 4]) 0x80000002).
  - lia.
  - vm_compute. discriminate.
Defined.

(** ** The base64 payload *)

Lemma byte_Z_bound (b : byte) : 0 <= byte_Z b < 256.
Proof.
  unfold byte_Z. pose proof (Byte.to_N_bounded b). lia.
Qed.

(** The sum that [decodeLayerBase64] computes in [uint32] is the
    little-endian value of the four bytes. *)
Lemma gid_of_bytes (b0 b1 b2 b3 : byte) :
  uint32 (uint32 (uint32 (byte_Z b0 + uint32 (Z.shiftl (byte_Z b1) 8))
                  + uint32 (Z.shiftl (byte_Z b2) 16))
          + uint32 (Z.shiftl (byte_Z b3) 24))
  = little_endian_uint32 b0 b1 b2 b3.
Proof.
  pose proof (byte_Z_bound b0). pose proof (byte_Z_bound b1).
  pose proof (byte_Z_bound b2). pose proof (byte_Z_bound b3).
  unfold little_endian_uint32, uint32.
  rewrite !Z.shiftl_mul_pow2 by lia.
  change (2 ^ 8) with 256. change (2 ^ 16) with 65536.
  change (2 ^ 24) with 16777216. change (2 ^ 32) with 4294967296.
  rewrite (Z.mod_small (byte_Z b1 * 256)) by lia.
  rewrite (Z.mod_small (byte_Z b2 * 65536)) by lia.
  rewrite (Z.mod_small (byte_Z b3 * 16777216)) by lia.
  rewrite (Z.mod_small (byte_Z b0 + byte_Z b1 * 256)) by lia.
  rewrite (Z.mod_small (byte_Z b0 + byte_Z b1 * 256 + byte_Z b2 * 65536))
    by lia.
  rewrite Z.mod_small by lia. lia.
Qed.

Lemma decodeLayerBase64_body_step (m : Map) (dataBytes : list byte)
    (y x : nat) (j : nat) (gids : list Z) :
  let w := Z.to_nat (Width m) in
  let h := Z.to_nat (Height m) in
  (x < w)%nat -> (y < h)%nat ->
  Z.of_nat (length dataBytes) = Width m * Height m * 4 ->
  length gids = Z.to_nat (Width m * Height m) ->
  j = (4 * (y * w + x))%nat ->
  (forall k, (k < y * w + x)%nat -> cell_decoded dataBytes gids k) ->
  exists gids',
    decodeLayerBase64_body m dataBytes y x (j, gids)
      = (None, ((4 * (y * w + Datatypes.S x))%nat, gids')) /\
    length gids' = Z.to_nat (Width m * Height m) /\
    (forall k, (k < y * w + Datatypes.S x)%nat ->
       cell_decoded dataBytes gids' k).
Proof.
  intros w h Hx Hy Hlen Hgids -> Hdone.
  assert (HW : Width m = Z.of_nat w) by (unfold w; lia).
  assert (HH : Height m = Z.of_nat h) by (unfold h; lia).
  assert (Hcell : (y * w + x < w * h)%nat) by nia.
  assert (Hn : Z.to_nat (Width m * Height m) = (w * h)%nat)
    by (rewrite HW, HH; lia).
  assert (Hbytes : length dataBytes = (4 * (w * h))%nat)
    by (rewrite HW, HH in Hlen; lia).
  set (k0 := (y * w + x)%nat) in *.
  destruct (lookup_lt_is_Some_2 dataBytes (4 * k0)%nat ltac:(lia))
    as [b0 Hb0].
  destruct (lookup_lt_is_Some_2 dataBytes (4 * k0 + 1)%nat ltac:(lia))
    as [b1 Hb1].
  destruct (lookup_lt_is_Some_2 dataBytes (4 * k0 + 2)%nat ltac:(lia))
    as [b2 Hb2].
  destruct (lookup_lt_is_Some_2 dataBytes (4 * k0 + 3)%nat ltac:(lia))
    as [b3 Hb3].
  unfold decodeLayerBase64_body.
  rewrite Hb0, Hb1, Hb2, Hb3, gid_of_bytes.
  replace (Z.of_nat y * Width m + Z.of_nat x) with (Z.of_nat k0)
    by (rewrite HW; unfold k0; lia).
  replace ((0 <=? Z.of_nat k0) && (Z.of_nat k0 <? Z.of_nat (length gids)))
    with true
    by (symmetry; apply andb_true_iff; split;
        [apply Z.leb_le | apply Z.ltb_lt]; lia).
  rewrite Nat2Z.id.
  exists (<[k0 := little_endian_uint32 b0 b1 b2 b3]> gids).
  split; [|split].
  - f_equal. f_equal. unfold k0. lia.
  - rewrite length_insert. assumption.
  - intros k Hk.
    destruct (Nat.eq_dec k k0) as [->|Hne].
    + exists b0, b1, b2, b3. repeat split; try assumption.
      apply list_lookup_insert_eq. lia.
    + destruct (Hdone k ltac:(unfold k0 in *; lia))
        as (c0 & c1 & c2 & c3 & H0 & H1 & H2 & H3 & Hg).
      exists c0, c1, c2, c3. repeat split; try assumption.
      rewrite list_lookup_insert_ne by congruence. assumption.
Qed.

Lemma decodeLayerBase64_loops (m : Map) (dataBytes : list byte) :
  let w := Z.to_nat (Width m) in
  let h := Z.to_nat (Height m) in
  Z.of_nat (length dataBytes) = Width m * Height m * 4 ->
  exists j gids,
    for_range 0 h
      (fun y => for_range 0 w (decodeLayerBase64_body m dataBytes y))
      (0%nat, replicate (Z.to_nat (Width m * Height m)) 0)
    = (None, (j, gids)) /\
    length gids = Z.to_nat (Width m * Height m) /\
    (forall k, (k < h * w)%nat -> cell_decoded dataBytes gids k).
Proof.
  intros w h Hlen.
  set (Inv := fun (k0 : nat) (st : nat * list Z) =>
                fst st = (4 * k0)%nat /\
                length (snd st) = Z.to_nat (Width m * Height m) /\
                forall k, (k < k0)%nat ->
                          cell_decoded dataBytes (snd st) k).
  destruct (for_range2_invariant (R := error) Inv
              (decodeLayerBase64_body m dataBytes) h w
              (0%nat, replicate (Z.to_nat (Width m * Height m)) 0))
    as [[j gids] [Hrun (Hj & Hl & Hcells)]].
  - repeat split; simpl.
    + apply length_replicate.
    + intros k Hk. lia.
  - intros y x [j gids] Hy Hx (Hj & Hl & Hcells).
    cbn [fst snd] in Hj, Hl, Hcells.
    destruct (decodeLayerBase64_body_step m dataBytes y x j gids
                Hx Hy Hlen Hl Hj Hcells)
      as (gids' & Hbody & Hl' & Hcells').
    exists ((4 * (y * w + Datatypes.S x))%nat, gids').
    split; [assumption|]. unfold Inv. cbn [fst snd].
    rewrite <- Nat.add_succ_r. split; [reflexivity|].
    split; assumption.
  - exists j, gids. repeat split; assumption.
Qed.



Example decodeLayerBase64_example :
  decodeLayerBase64 (grid 2 1 [] [])
    (mkLayer "BG0" no_Properties (mkData "base64" "" "abcdABCD" [])
             [] [] None false)
  = Ok (mkLayer "BG0" no_Properties (mkData "base64" "" "abcdABCD" [])
          [0x64636261; 0x44434241] [] None false).
Proof. reflexivity. Qed.

(** ** Tileset inference *)

(** With the sentinel alone the layer is empty. *)
Lemma getTileset_all_nil (m : Map) (l : Layer) :
  Forall (fun t => t = NilTile) (DecodedTiles l) ->
  getTileset m l = (None, true, false).
Proof.
  intros Hall. unfold getTileset.
  induction Hall as [|t rest -> _ IH]; simpl; [reflexivity|exact IH].
Qed.

(** After [Read], a nil cell that follows a cell of a tileset makes
    [getTileset] report several tilesets. *)
Lemma getTileset_nil_after_cell (m : Map) (l : Layer)
    (pre post : list DecodedTile) (k : nat) (id : Z) :
  Forall (fun t => t = NilTile) pre ->
  DecodedTiles l = (pre ++ cell k id :: NilTile :: post)%list ->
  getTileset m l = (Some k, false, true).
Proof.
  intros Hpre Hl. unfold getTileset. rewrite Hl. clear Hl.
  induction Hpre as [|t pre -> _ IH]; simpl.
  - reflexivity.
  - exact IH.
Qed.

(** C2 (code defect).  A 2x1 layer with the ids 1, 0 over one tileset: the
    only non-nil cell is of that tileset, yet [Read] leaves the layer with
    no tileset.  The sentinel of the second cell has [Nil = false] and
    counts as a cell of another tileset. *)
Theorem Read_single_tileset_with_nil_cell :
  match Read (Ok (grid 2 1 [tileset_of_size 1 4] [csv_layer "1,0"])) with
  | Ok m =>
      map DecodedTiles (Layers m) = [[cell 0 0; NilTile]] /\
      map Layer_Tileset (Layers m) = [None] /\
      map Empty (Layers m) = [false]
  | Err _ => False
  end.
Proof. vm_compute. repeat split. Qed.

(** ** Property lookup *)

Lemma Properties_Get_loop_filter (props : list Property) (name : string) :
  Properties_Get_loop props name =
  map Property_Value
      (List.filter (fun prop => String.eqb (Property_Name prop) name) props).
Proof.
  induction props as [|prop rest IH]; simpl; [reflexivity|].
  destruct (String.eqb (Property_Name prop) name); simpl; congruence.
Qed.

(** The lookup of the exporter [Do] does what C8 says: the value when exactly
    one entry carries the key, [PropertyUnavailable] when none does,
    [PropertyNotUnique] when several do. *)
Lemma OfSlice_GetProperty_spec (props : list Property) (name : string) :
  let hits :=
    List.filter (fun prop => String.eqb (Property_Name prop) name) props in
  OfSlice.GetProperty props name =
    match hits with
    | [] => ("", Some PropertyUnavailable)
    | [prop] => (Property_Value prop, None)
    | _ :: _ :: _ => ("", Some PropertyNotUnique)
    end.
Proof.
  intros hits. unfold OfSlice.GetProperty.
  rewrite Properties_Get_loop_filter. fold hits.
  destruct hits as [|p1 [|p2 rest]]; reflexivity.
Qed.

(** The lookup of the GBA target never yields a value. *)
Lemma OfProperties_GetProperty_no_value (p : Properties) (name : string) :
  OfProperties.GetProperty p name = ("", Some PropertyNotUnique) \/
  OfProperties.GetProperty p name = ("", Some PropertyUnavailable).
Proof.
  unfold OfProperties.GetProperty.
  destruct (1 <? length (Properties_Get p name))%nat; [left|right];
    reflexivity.
Qed.

(** C8 (code defect).  With exactly one entry for the key, the lookup of the
    GBA target returns the empty string and [PropertyUnavailable]; the lookup
    of [Do] returns the value. *)
Theorem GetProperty_single_entry_unavailable :
  OfProperties.GetProperty (mkProperties [mkProperty "Affine" "true"])
                           "Affine"
    = ("", Some PropertyUnavailable) /\
  OfSlice.GetProperty [mkProperty "Affine" "true"] "Affine" = ("true", None).
Proof. split; reflexivity. Qed.

(** ** The GBA target *)

Lemma isAffine_fresh (la : addr) (l : Layer) :
  fst (isAffine la l GBA_new) = false.
Proof.
  unfold isAffine, GBA_new. simpl. rewrite lookup_empty. simpl.
  destruct (OfProperties_GetProperty_no_value (Layer_Properties l) "Affine")
    as [E|E]; rewrite E; reflexivity.
Qed.

(** On a fresh target the first nil cell of any layer with a tileset is the
    16-bit entry 0, whatever the layer's properties and the tileset's
    size. *)
Lemma nilTile_first_call (m : Map) (la : addr) (l : Layer) (ti : nat)
    (tileset : Tileset) :
  Layer_Tileset l = Some ti -> Tilesets m !! ti = Some tileset ->
  fst (GBA_ScreenblockEntry m la l nil_cell GBA_new) = Ok (U16 0).
Proof.
  intros Hl Hts. unfold GBA_ScreenblockEntry.
  pose proof (isAffine_fresh la l) as Haff.
  unfold isAffine in *. simpl in *. rewrite lookup_empty in *. simpl in *.
  rewrite Haff. unfold nilTile. simpl.
  rewrite lookup_empty, Hl. simpl. rewrite Hts.
  unfold isAffine. simpl. rewrite lookup_insert_eq. reflexivity.
Qed.


(** ** Export preconditions *)

(** C6 (amended).  A layer exported in indexed mode (its [Bitmap] property
    is not ["true"]) is checked before any write: without a tileset the
    export fails with [EmptyLayer] or [MultipleTilesets], with more tiles
    than [MaxTiles] allows it fails with [TooManyTiles]; the writer is then
    closed as it was handed in. *)
Theorem Do_layer_indexed_preconditions {C W : Type} `{Console C}
    `{WriteCloser W} `{Gbacomp W}
    (m : Map) (la : addr) (l : Layer) (w : W) (c : C) :
  String.eqb
    (fst (OfSlice.GetProperty (Properties_Properties (Layer_Properties l))
                              "Bitmap")) "true" = false ->
  (Layer_Tileset l = None -> Empty l = true ->
   Do_layer m la l w c = (Some EmptyLayer, Close w, c)) /\
  (Layer_Tileset l = None -> Empty l = false ->
   Do_layer m la l w c = (Some MultipleTilesets, Close w, c)) /\
  (forall (ti : nat) (tileset : Tileset),
     Layer_Tileset l = Some ti -> Tilesets m !! ti = Some tileset ->
     fst (MaxTiles m la l c) < Z.of_nat (length (Tiles tileset)) ->
     Do_layer m la l w c
     = (Some TooManyTiles, Close w, snd (MaxTiles m la l c))).
Proof.
  intros Hmode. unfold Do_layer. rewrite Hmode. unfold saveLayer.
  repeat split.
  - intros -> ->. reflexivity.
  - intros -> ->. reflexivity.
  - intros ti tileset -> -> Hmax.
    destruct (MaxTiles m la l c) as [maxTiles c1]. simpl in *.
    replace (maxTiles <? Z.of_nat (length (Tiles tileset))) with true
      by zcases.
    reflexivity.
Qed.

Lemma Do_layer_indexed_preconditions_witness :
  Do_layer (grid 2 1 [tileset_of_size 1 16] []) 0%nat
           (layer_of [] [NilTile; NilTile] None true) (empty_file 2) GBA_new
  = (Some EmptyLayer, Close (empty_file 2), GBA_new).
Proof.
  apply (Do_layer_indexed_preconditions
           (grid 2 1 [tileset_of_size 1 16] []) 0%nat
           (layer_of [] [NilTile; NilTile] None true) (empty_file 2)
           GBA_new); reflexivity.
Defined.

Lemma Do_layer_bitmap_without_tileset :
  fst (Do_layer (grid 8 1 [tileset_of_size 1 4; tileset_of_size 5 4] [])
         0%nat
         (layer_of [mkProperty "Bitmap" "true"]
            [cell 0 0; cell 1 0; cell 0 0; cell 1 0;
             cell 0 0; cell 1 0; cell 0 0; cell 1 0] None false)
         (empty_file 1) GBA_new)
  = (None, {| written := [255]; room := 0; closed := true |}).
Proof. vm_compute. reflexivity. Qed.

(** C6 as stated fails: a layer in bitmap mode whose cells are of two
    tilesets has no tileset, and is exported with one byte written and no
    error. *)
Lemma export_preconditions_counterexample :
  ~ export_preconditions_claim_as_stated.
Proof.
  intros Hclaim.
  destruct (Hclaim GBA Sink _ _ _
              (grid 8 1 [tileset_of_size 1 4; tileset_of_size 5 4] []) 0%nat
              (layer_of [mkProperty "Bitmap" "true"]
                 [cell 0 0; cell 1 0; cell 0 0; cell 1 0;
                  cell 0 0; cell 1 0; cell 0 0; cell 1 0] None false)
              (empty_file 1) GBA_new) as [_ [Hmixed _]].
  destruct (Hmixed eq_refl eq_refl) as [c' Hexport].
  apply (f_equal (fun r => fst (fst r))) in Hexport.
  vm_compute in Hexport. discriminate.
Qed.

(** ** Indexed mode and write errors *)


(** C9 (code defect).  The file refuses every write; [saveLayer] on a 1x1
    layer still returns no error, and nothing was written. *)
Theorem saveLayer_ignores_write_error :
  let m := grid 1 1 [tileset_of_size 1 16] [] in
  let l := layer_of [] [cell 0 3] (Some 0%nat) false in
  fst (Write (encode LittleEndian (U16 3)) (empty_file 0))
    = Some (IOError 28) /\
  fst (saveLayer m 0%nat l (empty_file 0) GBA_new)
    = (None, {| written := []; room := 0; closed := true |}).
Proof. vm_compute. split; reflexivity. Qed.

(** ** Bitmap mode *)

Lemma cell_bit_range (cells : list DecodedTile) (t : nat) :
  (t < 8)%nat -> 0 <= cell_bit cells t < 2 ^ 8.
Proof.
  intros Ht. unfold cell_bit.
  destruct (cells !! t) as [c|]; [|lia].
  destruct (Nil c); [lia|].
  split; [apply Z.pow_nonneg; lia|].
  apply Z.pow_lt_mono_r; lia.
Qed.

Lemma lor_range (a b n : Z) :
  0 <= n -> 0 <= a < 2 ^ n -> 0 <= b < 2 ^ n -> 0 <= Z.lor a b < 2 ^ n.
Proof.
  intros Hn Ha Hb.
  assert (Hnn : 0 <= Z.lor a b) by (apply Z.lor_nonneg; lia).
  split; [assumption|].
  destruct (Z.eq_dec (Z.lor a b) 0) as [E|E].
  - rewrite E. apply Z.pow_pos_nonneg; lia.
  - assert (Hpos : 0 < n).
    { destruct (Z.eq_dec n 0) as [->|]; [|lia].
      exfalso. apply E.
      replace a with 0 by (simpl in Ha; lia).
      replace b with 0 by (simpl in Hb; lia). reflexivity. }
    apply Z.log2_lt_pow2; [lia|].
    rewrite Z.log2_lor by lia.
    apply Z.max_lub_lt.
    + destruct (Z.eq_dec a 0) as [->|]; [simpl; lia|].
      apply Z.log2_lt_pow2; lia.
    + destruct (Z.eq_dec b 0) as [->|]; [simpl; lia|].
      apply Z.log2_lt_pow2; lia.
Qed.

Lemma bits_below_range (cells : list DecodedTile) (j : nat) :
  (j <= 8)%nat -> 0 <= bits_below cells j < 2 ^ 8.
Proof.
  induction j as [|j IH]; intros Hj; simpl.
  - lia.
  - apply lor_range; [lia|apply IH; lia|apply cell_bit_range; lia].
Qed.

(** A bit that is in already changes nothing. *)
Lemma bits_below_absorbs (cells : list DecodedTile) (j t : nat) :
  (t < j)%nat ->
  Z.lor (bits_below cells j) (cell_bit cells t) = bits_below cells j.
Proof.
  induction j as [|j IH]; intros Ht; [lia|]. simpl.
  destruct (Nat.eq_dec t j) as [->|Hne].
  - rewrite <- Z.lor_assoc, Z.lor_diag. reflexivity.
  - rewrite <- Z.lor_assoc, (Z.lor_comm (cell_bit cells j)), Z.lor_assoc.
    rewrite IH by lia. reflexivity.
Qed.

Lemma saveLayerBitmap_body_step (l : Layer) (s0 : Sink) (n k : nat)
    (i d : Z) (s : Sink) (y : nat) :
  let cells := DecodedTiles l in
  length cells = n -> (n / 8 <= room s0)%nat -> (k < n)%nat ->
  forall q r : nat,
    k = (8 * q + r)%nat -> (r < 8)%nat ->
    i = Z.of_nat r ->
    d = bits_below cells (Nat.min k 8) ->
    written s = (written s0 ++ replicate q (bits_below cells 8))%list ->
    (room s + q)%nat = room s0 ->
    closed s = closed s0 ->
    exists i' d' s' q' r',
      saveLayerBitmap_body l y (i, d, s) = (None, (i', d', s')) /\
      Datatypes.S k = (8 * q' + r')%nat /\ (r' < 8)%nat /\
      i' = Z.of_nat r' /\
      d' = bits_below cells (Nat.min (Datatypes.S k) 8) /\
      written s' = (written s0 ++ replicate q' (bits_below cells 8))%list /\
      (room s' + q')%nat = room s0 /\
      closed s' = closed s0.
Proof.
  intros cells Hlen Hroom Hk q r Hkqr Hr -> -> Hw Hrm Hcl.
  destruct (lookup_lt_is_Some_2 cells r ltac:(lia)) as [t Ht].
  assert (Hd : (if Bool.eqb (Nil t) false
                then uint8 (Z.lor (bits_below cells (Nat.min k 8))
                                  (uint8 (Z.shiftl 1 (Z.of_nat r))))
                else bits_below cells (Nat.min k 8))
               = bits_below cells (Nat.min (Datatypes.S k) 8)).
  { assert (Hbit : cell_bit cells r
                   = if Nil t then 0 else 2 ^ Z.of_nat r)
      by (unfold cell_bit; rewrite Ht; reflexivity).
    assert (Hnext : Z.lor (bits_below cells (Nat.min k 8)) (cell_bit cells r)
                    = bits_below cells (Nat.min (Datatypes.S k) 8)).
    { destruct (Nat.lt_ge_cases k 8) as [Hlt|Hge].
      - assert (q = 0%nat) by lia. subst q.
        replace (Nat.min k 8) with r by lia.
        replace (Nat.min (Datatypes.S k) 8) with (Datatypes.S r) by lia.
        reflexivity.
      - replace (Nat.min k 8) with 8%nat by lia.
        replace (Nat.min (Datatypes.S k) 8) with 8%nat by lia.
        apply bits_below_absorbs. assumption. }
    rewrite <- Hnext, Hbit.
    destruct (Nil t); simpl.
    - rewrite Z.lor_0_r. reflexivity.
    - rewrite Z.shiftl_1_l. unfold uint8.
      rewrite (Z.mod_small (2 ^ Z.of_nat r)).
      + apply Z.mod_small.
        apply lor_range; [lia|apply bits_below_range; lia|].
        split; [apply Z.pow_nonneg; lia|apply Z.pow_lt_mono_r; lia].
      + split; [apply Z.pow_nonneg; lia|apply Z.pow_lt_mono_r; lia]. }
  unfold saveLayerBitmap_body. fold cells.
  rewrite Nat2Z.id, Ht, Hd.
  destruct (Nat.eq_dec r 7%nat) as [->|Hne].
  - change (Z.land (Z.of_nat 7 + 1) 7 =? 0) with true. cbv iota.
    assert (Hroom' : (Datatypes.S q <= room s0)%nat).
    { apply Nat.le_trans with (n / 8)%nat; [|assumption].
      apply Nat.div_le_lower_bound; lia. }
    replace (Nat.min (Datatypes.S k) 8) with 8%nat by lia.
    unfold Write, Sink_WriteCloser.
    destruct (room s) as [|rm] eqn:Hrs; [lia|].
    exists 0, (bits_below cells 8),
      {| written := (written s ++ [bits_below cells 8])%list; room := rm;
         closed := closed s |}, (Datatypes.S q), 0%nat.
    split; [reflexivity|].
    split; [lia|]. split; [lia|]. split; [reflexivity|].
    split; [reflexivity|]. split; [|split; [simpl; lia|assumption]].
    cbn [written]. rewrite Hw, <- app_assoc, replicate_S_end. reflexivity.
  - replace (Z.land (Z.of_nat r + 1) 7 =? 0) with false.
    + exists (Z.of_nat r + 1), (bits_below cells (Nat.min (Datatypes.S k) 8)),
        s, q, (Datatypes.S r).
      split; [reflexivity|].
      split; [lia|]. split; [lia|]. split; [lia|].
      split; [reflexivity|]. split; [assumption|]. split; assumption.
    + destruct r as [|[|[|[|[|[|[|r]]]]]]]; try reflexivity; lia.
Qed.

(** X27.  In bitmap mode, on a file with room for the writes, a layer of
    [n] cells is written as [n / 8] bytes, each of them the bits of the
    cells 0 to 7: the cells from 8 on are never read and a last group of
    fewer than 8 cells is not written. *)
Lemma saveLayerBitmap_repeats_first_byte (m : Map) (l : Layer) (s0 : Sink) :
  let n := (Z.to_nat (Height m) * Z.to_nat (Width m))%nat in
  length (DecodedTiles l) = n -> (n / 8 <= room s0)%nat ->
  saveLayerBitmap m l s0
  = (None,
     {| written :=
          (written s0
           ++ replicate (n / 8) (bits_below (DecodedTiles l) 8))%list;
        room := (room s0 - n / 8)%nat; closed := true |}).
Proof.
  intros n Hlen Hroom.
  set (cells := DecodedTiles l).
  set (Inv := fun (k : nat) (st : Z * Z * Sink) =>
    exists q r : nat,
      k = (8 * q + r)%nat /\ (r < 8)%nat /\
      fst (fst st) = Z.of_nat r /\
      snd (fst st) = bits_below cells (Nat.min k 8) /\
      written (snd st)
        = (written s0 ++ replicate q (bits_below cells 8))%list /\
      (room (snd st) + q)%nat = room s0 /\
      closed (snd st) = closed s0).
  destruct (for_range2_invariant (R := error) Inv
              (fun _ => saveLayerBitmap_body l)
              (Z.to_nat (Height m)) (Z.to_nat (Width m)) (0, 0, s0))
    as [[[i d] s] [Hrun (q & r & Hn & Hr & _ & _ & Hw & Hrm & Hcl)]].
  - exists 0%nat, 0%nat. simpl. rewrite app_nil_r.
    repeat split; lia.
  - intros y x [[i d] s] Hy Hx (q & r & Hk & Hr & Hi & Hd & Hw & Hrm & Hcl).
    simpl in Hi, Hd, Hw, Hrm, Hcl.
    destruct (saveLayerBitmap_body_step l s0 n
                (y * Z.to_nat (Width m) + x)%nat i d s x Hlen Hroom
                ltac:(unfold n; nia) q r Hk Hr Hi Hd Hw Hrm Hcl)
      as (i' & d' & s' & q' & r' & Hbody & Hk' & Hr' & Hi' & Hd' & Hw'
          & Hrm' & Hcl').
    exists (i', d', s'). split; [assumption|].
    exists q', r'. simpl. repeat split; assumption.
  - unfold saveLayerBitmap. rewrite Hrun. simpl in Hw, Hrm, Hcl.
    assert (Hq : (n / 8)%nat = q).
    { symmetry. apply (Nat.div_unique n 8 q r); [assumption|].
      unfold n. lia. }
    rewrite Hq. simpl. f_equal. rewrite Hw.
    f_equal. lia.
Qed.

(** C3 (code defect).  In bitmap mode a 2x2 layer of four non-nil cells
    yields no byte at all, where the specified bitmap is the byte 15; a 4x4
    layer whose first eight cells are non-nil and whose last eight are nil
    yields the bytes 255, 255, where the specified bitmap is 255, 0: the
    second byte repeats the first instead of holding the cells 8 to 15. *)
Theorem saveLayerBitmap_packing_fails :
  let full := replicate 4 (cell 0 0) in
  let half := (replicate 8 (cell 0 0) ++ replicate 8 nil_cell)%list in
  saveLayerBitmap (grid 2 2 [tileset_of_size 1 16] [])
    (layer_of [] full (Some 0%nat) false) (empty_file 4)
  = (None, {| written := []; room := 4; closed := true |}) /\
  bitmap_as_specified full = [15] /\
  saveLayerBitmap (grid 4 4 [tileset_of_size 1 16] [])
    (layer_of [] half (Some 0%nat) false) (empty_file 4)
  = (None, {| written := [255; 255]; room := 2; closed := true |}) /\
  bitmap_as_specified half = [255; 0].
Proof. repeat split; reflexivity. Qed.

(** * Further properties of the code *)

(** ** The GID resolver, without assumptions on the tileset list *)

Lemma DecodeGID_scan_cases (m : Map) (gid g : Z) (n : nat) :
  (n <= length (Tilesets m))%nat ->
  (DecodeGID_scan m gid g n = Err InvalidGID /\
   forall i ts, (i < n)%nat -> Tilesets m !! i = Some ts -> g < FirstGID ts)
  \/
  (exists k ts,
     (k < n)%nat /\ Tilesets m !! k = Some ts /\ FirstGID ts <= g /\
     (forall j tj, (k < j < n)%nat -> Tilesets m !! j = Some tj ->
                   g < FirstGID tj) /\
     DecodeGID_scan m gid g n =
       Ok {| ID := uint32 (g - FirstGID ts); Tileset_of := Some k;
             HorizontalFlip := negb (Z.land gid GIDHorizontalFlip =? 0);
             VerticalFlip := negb (Z.land gid GIDVerticalFlip =? 0);
             Nil := false |}).
Proof.
  induction n as [|i IH]; intros Hn.
  - left. split; [reflexivity|]. intros i ts Hi. lia.
  - simpl.
    destruct (lookup_lt_is_Some_2 (Tilesets m) i ltac:(lia)) as [ts Hts].
    rewrite Hts.
    destruct (Z.leb_spec (FirstGID ts) g) as [Hle|Hgt].
    + right. exists i, ts. repeat split; try assumption; try lia.
    + destruct (IH ltac:(lia)) as [[Herr Hall]|(k & tk & Hk & Htk & Hle & Hlater & Hok)].
      * left. split; [assumption|].
        intros j tj Hj Htj.
        destruct (Nat.eq_dec j i) as [->|Hne].
        -- rewrite Hts in Htj. inversion Htj; subst. assumption.
        -- apply (Hall j tj); [lia|assumption].
      * right. exists k, tk. repeat split; try assumption; try lia.
        intros j tj Hj Htj.
        destruct (Nat.eq_dec j i) as [->|Hne].
        -- rewrite Hts in Htj. inversion Htj; subst. assumption.
        -- apply (Hlater j tj); [lia|assumption].
Qed.

Lemma DecodeGID_scan_Nil (m : Map) (gid g : Z) (n : nat) (t : DecodedTile) :
  DecodeGID_scan m gid g n = Ok t -> Nil t = false.
Proof.
  induction n as [|i IH]; cbn [DecodeGID_scan]; [discriminate|].
  destruct (Tilesets m !! i) as [ts|]; [|discriminate].
  destruct (FirstGID ts <=? g); [|exact IH].
  intros Hok. inversion Hok. reflexivity.
Qed.

(** X1.  A raw id other than 0 fails with [InvalidGID] exactly when its bare
    id is below the first id of every tileset; no other failure, and no
    panic, is possible. *)
Theorem DecodeGID_error_iff (m : Map) (gid : Z) :
  gid <> 0 ->
  (DecodeGID m gid = Err InvalidGID <->
   Forall (fun ts => Z.ldiff gid GIDFlip < FirstGID ts) (Tilesets m)) /\
  (forall e, DecodeGID m gid = Err e -> e = InvalidGID).
Proof.
  intros Hnz. unfold DecodeGID.
  destruct (Z.eqb_spec gid 0) as [E|_]; [contradiction|]. cbv zeta.
  destruct (DecodeGID_scan_cases m gid (Z.ldiff gid GIDFlip)
              (length (Tilesets m)) ltac:(lia))
    as [[Herr Hall]|(k & tk & Hk & Htk & Hle & Hlater & Hok)].
  - rewrite Herr. split.
    + split; [intros _|reflexivity].
      apply Forall_lookup. intros i ts Hi.
      apply (Hall i ts); [|assumption].
      apply lookup_lt_is_Some. eauto.
    + intros e He. congruence.
  - rewrite Hok. split.
    + split; [discriminate|].
      intros Hall. rewrite Forall_lookup in Hall.
      specialize (Hall k tk Htk). simpl in Hall. lia.
    + discriminate.
Qed.

(** X2.  Whatever the order of the tilesets, a resolved raw id belongs to
    the last tileset of the list whose first id is at most the bare id, and
    the raw id is recovered from the tile: first id plus local id is the
    bare id, and the horizontal and vertical flags are bits 31 and 30. *)
Theorem DecodeGID_last_match (m : Map) (gid : Z) (t : DecodedTile) :
  0 <= gid < 2 ^ 32 -> gid <> 0 ->
  Forall (fun ts => 0 <= FirstGID ts) (Tilesets m) ->
  DecodeGID m gid = Ok t ->
  exists k ts,
    Tileset_of t = Some k /\ Tilesets m !! k = Some ts /\
    (forall j tj, (k < j)%nat -> Tilesets m !! j = Some tj ->
                  Z.ldiff gid GIDFlip < FirstGID tj) /\
    FirstGID ts + ID t = Z.ldiff gid GIDFlip /\
    HorizontalFlip t = Z.testbit gid 31 /\
    VerticalFlip t = Z.testbit gid 30.
Proof.
  intros Hgid Hnz Hfirst Hok. unfold DecodeGID in Hok.
  destruct (Z.eqb_spec gid 0) as [E|_]; [contradiction|]. cbv zeta in Hok.
  destruct (DecodeGID_scan_cases m gid (Z.ldiff gid GIDFlip)
              (length (Tilesets m)) ltac:(lia))
    as [[Herr Hall]|(k & tk & Hk & Htk & Hle & Hlater & Hres)].
  - congruence.
  - rewrite Hres in Hok. inversion Hok; subst t; clear Hok. simpl.
    exists k, tk. repeat split; try assumption.
    + intros j tj Hj Htj. apply (Hlater j tj); [|assumption].
      split; [lia|]. apply lookup_lt_is_Some. eauto.
    + rewrite Forall_lookup in Hfirst. specialize (Hfirst k tk Htk).
      simpl in Hfirst.
      assert (Hb : 0 <= Z.ldiff gid GIDFlip < 2 ^ 29).
      { rewrite gidBare_mod by lia. apply Z.mod_pos_bound. lia. }
      unfold uint32. rewrite Z.mod_small by lia. lia.
    + apply (land_pow2_testbit gid 31). lia.
    + apply (land_pow2_testbit gid 30). lia.
Qed.

Lemma DecodeGID_last_match_witness :
  exists k ts,
    Tileset_of (mkDecodedTile 5 (Some 1%nat) true false false) = Some k /\
    Tilesets (map_of_tilesets [tileset_of_size 9 4; tileset_of_size 5 4])
      !! k = Some ts /\
    (forall j tj, (k < j)%nat ->
       Tilesets (map_of_tilesets [tileset_of_size 9 4; tileset_of_size 5 4])
         !! j = Some tj ->
       Z.ldiff 0x8000000A GIDFlip < FirstGID tj) /\
    FirstGID ts + ID (mkDecodedTile 5 (Some 1%nat) true false false)
      = Z.ldiff 0x8000000A GIDFlip /\
    HorizontalFlip (mkDecodedTile 5 (Some 1%nat) true false false)
      = Z.testbit 0x8000000A 31 /\
    VerticalFlip (mkDecodedTile 5 (Some 1%nat) true false false)
      = Z.testbit 0x8000000A 30.
Proof.
  apply (DecodeGID_last_match
           (map_of_tilesets [tileset_of_size 9 4; tileset_of_size 5 4])
           0x8000000A).
  - lia.
  - discriminate.
  - repeat constructor; simpl; lia.
  - reflexivity.
Defined.

(** X3.  No tile that [DecodeGID] returns has its flag [Nil] set, the
    sentinel [NilTile] included. *)
Theorem DecodeGID_never_Nil (m : Map) (gid : Z) (t : DecodedTile) :
  DecodeGID m gid = Ok t -> IsNil t = false.
Proof.
  unfold DecodeGID, IsNil. destruct (gid =? 0).
  - intros Hok. inversion Hok. reflexivity.
  - apply DecodeGID_scan_Nil.
Qed.

(** ** More on counted loops *)

Lemma for_range_shift {S R : Type} (f : S -> option R * S) (n lo lo' : nat)
    (s : S) :
  for_range lo n (fun _ => f) s = for_range lo' n (fun _ => f) s.
Proof.
  revert lo lo' s. induction n as [|n IH]; intros lo lo' s; simpl.
  - reflexivity.
  - destruct (f s) as [[r|] s']; [reflexivity|]. apply IH.
Qed.

Lemma for_range_add {S R : Type} (body : nat -> S -> option R * S)
    (a b lo : nat) (s : S) :
  for_range lo (a + b) body s =
  match for_range lo a body s with
  | (Some r, s') => (Some r, s')
  | (None, s') => for_range (lo + a) b body s'
  end.
Proof.
  revert lo s. induction a as [|a IH]; intros lo s; simpl.
  - rewrite Nat.add_0_r. reflexivity.
  - destruct (body lo s) as [[r|] s']; [reflexivity|].
    rewrite IH. replace (Datatypes.S lo + a)%nat with (lo + Datatypes.S a)%nat
      by lia. reflexivity.
Qed.

(** Two nested loops whose body does not look at the counters are one loop
    over all cells. *)
Lemma for_range_flatten {S R : Type} (f : S -> option R * S) (h w : nat)
    (s : S) :
  for_range 0 h (fun _ => for_range 0 w (fun _ => f)) s
  = for_range 0 (h * w) (fun _ => f) s.
Proof.
  generalize 0%nat at 1 3. revert s.
  induction h as [|h IH]; intros s lo; simpl; [reflexivity|].
  rewrite for_range_add.
  rewrite (for_range_shift f w lo 0).
  destruct (for_range 0 w (fun _ => f) s) as [[r|] s']; [reflexivity|].
  rewrite (for_range_shift f (h * w) (lo + w) (Datatypes.S lo)).
  apply IH.
Qed.

(** ** Bitmap mode: a failing write *)

Lemma saveLayerBitmap_body_low {W : Type} `{WriteCloser W} (l : Layer)
    (k : nat) (d : Z) (w : W) (y : nat) :
  (k < 7)%nat -> (k < length (DecodedTiles l))%nat ->
  exists d', saveLayerBitmap_body l y (Z.of_nat k, d, w)
             = (None, (Z.of_nat (Datatypes.S k), d', w)).
Proof.
  intros Hk Hlen.
  destruct (lookup_lt_is_Some_2 (DecodedTiles l) k Hlen) as [t Ht].
  unfold saveLayerBitmap_body. rewrite Nat2Z.id, Ht.
  replace (Z.land (Z.of_nat k + 1) 7 =? 0) with false
    by (destruct k as [|[|[|[|[|[|[|k]]]]]]]; try reflexivity; lia).
  eexists. f_equal. f_equal. f_equal. lia.
Qed.

(** X4.  In bitmap mode a write error is returned: on a layer of at least
    eight cells over a writer that refuses every write with the error [e],
    [saveLayerBitmap] returns [e]. *)
Theorem saveLayerBitmap_returns_write_error {W : Type} `{WriteCloser W}
    (m : Map) (l : Layer) (w : W) (e : error) :
  (8 <= Z.to_nat (Height m) * Z.to_nat (Width m))%nat ->
  (8 <= length (DecodedTiles l))%nat ->
  (forall bs, fst (Write bs w) = Some e) ->
  fst (saveLayerBitmap m l w) = Some e.
Proof.
  intros Hn Hlen Hfail. unfold saveLayerBitmap.
  change (saveLayerBitmap_body l)
    with (fun _ : nat => saveLayerBitmap_body l 0%nat).
  rewrite for_range_flatten.
  replace (Z.to_nat (Height m) * Z.to_nat (Width m))%nat
    with (7 + (1 + (Z.to_nat (Height m) * Z.to_nat (Width m) - 8)))%nat
    by lia.
  rewrite for_range_add.
  destruct (for_range_invariant (R := error)
              (fun k (st : Z * Z * W) =>
                 fst (fst st) = Z.of_nat k /\ snd st = w)
              (fun _ : nat => saveLayerBitmap_body l 0%nat) 7 0%nat
              (0, 0, w)) as [[[i d] w'] [Hrun [Hi Hw]]].
  - split; reflexivity.
  - intros k [[i d] w'] Hk [Hi Hw]. simpl in Hi, Hw. subst i w'.
    destruct (saveLayerBitmap_body_low l k d w 0%nat ltac:(lia) ltac:(lia))
      as [d' Hbody].
    exists (Z.of_nat (Datatypes.S k), d', w).
    split; [assumption|]. split; reflexivity.
  - rewrite Hrun. simpl in Hi, Hw. subst i w'.
    rewrite for_range_add. simpl.
    destruct (lookup_lt_is_Some_2 (DecodedTiles l) 7%nat ltac:(lia))
      as [t Ht].
    rewrite Nat2Z.id, Ht.
    match goal with
    | |- context [Write ?bs w] =>
        pose proof (Hfail bs) as Hwr; destruct (Write bs w) as [r w1]
    end.
    simpl in Hwr. subst r. reflexivity.
Qed.

Lemma saveLayerBitmap_returns_write_error_witness :
  fst (saveLayerBitmap (grid 4 2 [tileset_of_size 1 16] [])
         (layer_of [] (replicate 8 (cell 0 0)) (Some 0%nat) false)
         (empty_file 0))
  = Some (IOError 28).
Proof.
  apply (saveLayerBitmap_returns_write_error
           (grid 4 2 [tileset_of_size 1 16] [])
           (layer_of [] (replicate 8 (cell 0 0)) (Some 0%nat) false)
           (empty_file 0) (IOError 28)).
  - simpl. lia.
  - simpl. lia.
  - reflexivity.
Defined.

(** ** The csv payload *)

Lemma strings_Map_cleaner_app (s1 s2 : string) :
  strings_Map_cleaner (s1 ++ s2)%string
  = (strings_Map_cleaner s1 ++ strings_Map_cleaner s2)%string.
Proof.
  induction s1 as [|c s1 IH]; simpl; [reflexivity|].
  destruct (cleaner c); simpl; rewrite IH; reflexivity.
Qed.

(** X5.  [decodeCSV] does not see a character that is neither a digit nor
    a comma, wherever it stands: line breaks and blanks between the ids, but
    also inside a numeral. *)
Theorem decodeCSV_ignores_noise (d : Data) (s1 s2 : string) (c : ascii) :
  cleaner c = false ->
  decodeCSV (mkData (Encoding d) (Compression d)
                    (s1 ++ String c s2)%string (DataTiles d))
  = decodeCSV (mkData (Encoding d) (Compression d)
                      (s1 ++ s2)%string (DataTiles d)).
Proof.
  intros Hc. unfold decodeCSV. simpl.
  rewrite !strings_Map_cleaner_app. simpl. rewrite Hc. reflexivity.
Qed.

Lemma decodeCSV_ignores_noise_witness :
  decodeCSV (csv_Data "1,2,
3,4")
  = decodeCSV (csv_Data "1,2,3,4").
Proof.
  apply (decodeCSV_ignores_noise (csv_Data "") "1,2," "3,4" "010"%char).
  reflexivity.
Defined.

Lemma count_commas_cleaner (s : string) :
  count_commas (strings_Map_cleaner s) = count_commas s.
Proof.
  induction s as [|c s IH]; simpl; [reflexivity|].
  unfold cleaner.
  destruct (Ascii.eqb c ","%char) eqn:Hc.
  - rewrite orb_true_r. simpl. rewrite Hc, IH. reflexivity.
  - rewrite orb_false_r. destruct (is_digit c); simpl.
    + rewrite Hc. assumption.
    + assumption.
Qed.

Lemma Split_comma_length (s : string) :
  length (Split_comma s) = Datatypes.S (count_commas s).
Proof.
  induction s as [|c s IH]; simpl; [reflexivity|].
  destruct (Ascii.eqb c ","%char); simpl.
  - rewrite IH. reflexivity.
  - destruct (Split_comma s) as [|h t]; simpl in *; [discriminate|].
    assumption.
Qed.

Lemma decodeCSV_loop_ok (str : list string) (gids : list Z) :
  decodeCSV_loop str = Ok gids ->
  Forall2 (fun s g => exists d, ParseUint s 32 = Ok d /\ g = uint32 d)
          str gids.
Proof.
  revert gids. induction str as [|s rest IH]; intros gids; simpl.
  - intros Hok. inversion Hok. constructor.
  - destruct (ParseUint s 32) as [d|e] eqn:Hs; simpl; [|discriminate].
    destruct (decodeCSV_loop rest) as [decoded|e]; simpl; [|discriminate].
    intros Hok. inversion Hok; subst. constructor; eauto.
Qed.

(** X6.  When [decodeCSV] succeeds it returns one id for each comma of the
    payload and one more, each of them below [2^32]. *)
Theorem decodeCSV_count (d : Data) (gids : list Z) :
  decodeCSV d = Ok gids ->
  length gids = Datatypes.S (count_commas (RawData d)) /\
  Forall (fun g => 0 <= g < 2 ^ 32) gids.
Proof.
  unfold decodeCSV. intros Hok. apply decodeCSV_loop_ok in Hok. split.
  - rewrite <- (Forall2_length _ _ _ Hok), Split_comma_length.
    rewrite count_commas_cleaner. reflexivity.
  - apply Forall_lookup. intros i g Hg.
    destruct (Forall2_lookup_r _ _ _ _ _ Hok Hg) as (s & _ & dv & _ & ->).
    unfold uint32. apply Z.mod_pos_bound. lia.
Qed.

Lemma decodeCSV_count_witness :
  length [1; 2; 3; 4] = Datatypes.S (count_commas "1,2,
3,4") /\
  Forall (fun g => 0 <= g < 2 ^ 32) [1; 2; 3; 4].
Proof.
  apply (decodeCSV_count (csv_Data "1,2,
3,4") [1; 2; 3; 4]).
  reflexivity.
Defined.

Lemma Split_comma_snoc (x : string) :
  Split_comma (x ++ ",")%string = (Split_comma x ++ [EmptyString])%list.
Proof.
  induction x as [|c x IH]; simpl; [reflexivity|].
  destruct (Ascii.eqb c ","%char); simpl.
  - rewrite IH. reflexivity.
  - rewrite IH.
    pose proof (Split_comma_length x) as Hlen.
    destruct (Split_comma x) as [|h t]; [discriminate|]. reflexivity.
Qed.

Lemma decodeCSV_loop_empty_token (str : list string) :
  exists e, decodeCSV_loop (str ++ [EmptyString])%list = Err e.
Proof.
  induction str as [|s rest [e IH]]; simpl.
  - exists ErrSyntax. reflexivity.
  - destruct (ParseUint s 32) as [d|e']; simpl; [|eauto].
    rewrite IH. simpl. eauto.
Qed.

Lemma strings_Map_cleaner_noise (ws : string) :
  string_forall (fun c => negb (cleaner c)) ws = true ->
  strings_Map_cleaner ws = EmptyString.
Proof.
  induction ws as [|c ws IH]; simpl; [reflexivity|].
  intros Hall. apply andb_true_iff in Hall. destruct Hall as [Hc Hws].
  apply negb_true_iff in Hc. rewrite Hc. auto.
Qed.

(** X7.  A payload whose last digit or comma is a comma is rejected: the
    empty numeral after it does not parse. *)
Theorem decodeCSV_trailing_comma (d : Data) (s ws : string) :
  RawData d = (s ++ String ","%char ws)%string ->
  string_forall (fun c => negb (cleaner c)) ws = true ->
  exists e, decodeCSV d = Err e.
Proof.
  intros Hraw Hws. unfold decodeCSV. rewrite Hraw.
  rewrite strings_Map_cleaner_app. simpl.
  rewrite (strings_Map_cleaner_noise ws Hws).
  rewrite Split_comma_snoc. apply decodeCSV_loop_empty_token.
Qed.

Lemma decodeCSV_trailing_comma_witness :
  exists e, decodeCSV (csv_Data "1,2,
") = Err e.
Proof.
  apply (decodeCSV_trailing_comma (csv_Data "1,2,
") "1,2" "
"); reflexivity.
Defined.

Lemma digit_char_spec (k : Z) :
  0 <= k < 10 ->
  is_digit (digit_char k) = true /\
  Z.of_nat (nat_of_ascii (digit_char k)) - 48 = k /\
  Ascii.eqb (digit_char k) ","%char = false.
Proof.
  intros Hk.
  assert (k = 0 \/ k = 1 \/ k = 2 \/ k = 3 \/ k = 4 \/ k = 5 \/ k = 6 \/
          k = 7 \/ k = 8 \/ k = 9) as Hcases by lia.
  repeat (destruct Hcases as [->|Hcases]; [repeat split|]).
  subst k. repeat split.
Qed.

Lemma ParseUint_digits_cons (c : ascii) (s : string) (maxVal n : Z) :
  ParseUint_digits (String c s) maxVal n =
  if is_digit c then
    if maxVal <? n * 10 + (Z.of_nat (nat_of_ascii c) - 48) then Err ErrRange
    else ParseUint_digits s maxVal (n * 10 + (Z.of_nat (nat_of_ascii c) - 48))
  else Err ErrSyntax.
Proof. reflexivity. Qed.

Lemma ParseUint_FormatUint_digits (fuel : nat) (n maxVal : Z) (acc : string) :
  0 <= n < 10 ^ Z.of_nat fuel -> n <= maxVal ->
  ParseUint_digits (FormatUint_digits fuel n acc) maxVal 0
  = ParseUint_digits acc maxVal n.
Proof.
  revert n acc. induction fuel as [|fuel IH]; intros n acc Hn Hmax.
  - cbn [FormatUint_digits]. change (10 ^ Z.of_nat 0) with 1 in Hn.
    replace n with 0 by lia. reflexivity.
  - cbn [FormatUint_digits].
    assert (Hmod : 0 <= n mod 10 < 10) by (apply Z.mod_pos_bound; lia).
    destruct (digit_char_spec (n mod 10) Hmod) as (Hdig & Hval & _).
    pose proof (Z.div_mod n 10 ltac:(lia)) as Hdm.
    destruct (Z.ltb_spec n 10) as [Hsmall|Hbig].
    + rewrite ParseUint_digits_cons, Hdig, Hval.
      rewrite Z.mod_small by lia.
      replace (0 * 10 + n) with n by lia.
      replace (maxVal <? n) with false by zcases. reflexivity.
    + rewrite IH.
      * rewrite ParseUint_digits_cons, Hdig, Hval.
        replace (n / 10 * 10 + n mod 10) with n by lia.
        replace (maxVal <? n) with false by zcases. reflexivity.
      * split; [apply Z.div_pos; lia|].
        apply Z.div_lt_upper_bound; [lia|].
        rewrite Nat2Z.inj_succ, Z.pow_succ_r in Hn by lia. lia.
      * assert (n / 10 <= n) by (apply Z.div_le_upper_bound; lia). lia.
Qed.

Lemma FormatUint_digits_shape (fuel : nat) (n : Z) (acc : string) :
  0 <= n ->
  string_forall is_digit acc = true ->
  string_forall is_digit (FormatUint_digits fuel n acc) = true /\
  (acc <> EmptyString \/ (0 < fuel)%nat ->
   FormatUint_digits fuel n acc <> EmptyString).
Proof.
  revert n acc. induction fuel as [|fuel IH]; intros n acc Hn Hacc.
  - cbn [FormatUint_digits]. split; [assumption|].
    intros [Hne|Hf]; [assumption|lia].
  - cbn [FormatUint_digits].
    assert (Hmod : 0 <= n mod 10 < 10) by (apply Z.mod_pos_bound; lia).
    destruct (digit_char_spec (n mod 10) Hmod) as (Hdig & _ & _).
    destruct (n <? 10).
    + cbn [string_forall]. rewrite Hdig, Hacc.
      split; [reflexivity|]. intros _. discriminate.
    + destruct (IH (n / 10) (String (digit_char (n mod 10)) acc)) as [Hd Hne].
      * apply Z.div_pos; lia.
      * cbn [string_forall]. rewrite Hdig, Hacc. reflexivity.
      * split; [assumption|]. intros _. apply Hne. left. discriminate.
Qed.

Lemma ParseUint_FormatUint (n : Z) :
  0 <= n < 2 ^ 32 -> ParseUint (FormatUint n) 32 = Ok n.
Proof.
  intros Hn. unfold ParseUint, FormatUint.
  destruct (FormatUint_digits_shape 10 n EmptyString ltac:(lia) eq_refl)
    as [_ Hne].
  specialize (Hne ltac:(right; lia)).
  change (2 ^ 32) with 4294967296 in *.
  destruct (FormatUint_digits 10 n EmptyString) as [|c s] eqn:Hfmt;
    [contradiction|].
  rewrite <- Hfmt.
  rewrite ParseUint_FormatUint_digits; [reflexivity| |lia].
  change (10 ^ Z.of_nat 10) with 10000000000. lia.
Qed.

Lemma strings_Map_cleaner_id (s : string) :
  string_forall cleaner s = true -> strings_Map_cleaner s = s.
Proof.
  induction s as [|c s IH]; cbn [string_forall strings_Map_cleaner];
    [reflexivity|].
  intros Hall. apply andb_true_iff in Hall. destruct Hall as [Hc Hs].
  rewrite Hc, IH by assumption. reflexivity.
Qed.

Lemma string_forall_app (P : ascii -> bool) (s1 s2 : string) :
  string_forall P (s1 ++ s2)%string
  = string_forall P s1 && string_forall P s2.
Proof.
  induction s1 as [|c s1 IH]; simpl; [reflexivity|].
  rewrite IH, andb_assoc. reflexivity.
Qed.

Lemma string_forall_digit_cleaner (s : string) :
  string_forall is_digit s = true -> string_forall cleaner s = true.
Proof.
  induction s as [|c s IH]; cbn [string_forall]; [reflexivity|].
  intros Hall. apply andb_true_iff in Hall. destruct Hall as [Hc Hs].
  rewrite IH by assumption. unfold cleaner. rewrite Hc. reflexivity.
Qed.

Lemma is_digit_not_comma (c : ascii) :
  is_digit c = true -> Ascii.eqb c ","%char = false.
Proof.
  intros Hd. destruct (Ascii.eqb_spec c ","%char) as [->|]; [|reflexivity].
  discriminate.
Qed.

Lemma Split_comma_digits (s rest : string) :
  string_forall is_digit s = true ->
  Split_comma s = [s] /\
  Split_comma (s ++ String ","%char rest)%string = s :: Split_comma rest.
Proof.
  induction s as [|c s IH]; cbn [string_forall]; intros Hall.
  - split; reflexivity.
  - apply andb_true_iff in Hall. destruct Hall as [Hc Hs].
    destruct (IH Hs) as [IH1 IH2].
    simpl. rewrite (is_digit_not_comma c Hc), IH1, IH2. split; reflexivity.
Qed.

Lemma Join_comma_cleaner (strs : list string) :
  Forall (fun s => string_forall is_digit s = true) strs ->
  string_forall cleaner (Join_comma strs) = true.
Proof.
  induction 1 as [|s rest Hs Hrest IH]; [reflexivity|].
  destruct rest as [|s' rest].
  - apply string_forall_digit_cleaner. assumption.
  - change (Join_comma (s :: s' :: rest))
      with (s ++ String ","%char (Join_comma (s' :: rest)))%string.
    rewrite string_forall_app. cbn [string_forall].
    rewrite (string_forall_digit_cleaner s Hs), IH. reflexivity.
Qed.

Lemma Split_comma_Join_comma (strs : list string) :
  strs <> [] ->
  Forall (fun s => string_forall is_digit s = true) strs ->
  Split_comma (Join_comma strs) = strs.
Proof.
  intros Hne Hall. induction Hall as [|s rest Hs Hrest IH]; [contradiction|].
  destruct rest as [|s' rest].
  - apply (Split_comma_digits s EmptyString Hs).
  - change (Join_comma (s :: s' :: rest))
      with (s ++ String ","%char (Join_comma (s' :: rest)))%string.
    destruct (Split_comma_digits s (Join_comma (s' :: rest)) Hs) as [_ ->].
    rewrite IH by discriminate. reflexivity.
Qed.

Lemma decodeCSV_loop_FormatUint (gids : list Z) :
  Forall (fun g => 0 <= g < 2 ^ 32) gids ->
  decodeCSV_loop (map FormatUint gids) = Ok gids.
Proof.
  induction 1 as [|g rest Hg Hrest IH]; [reflexivity|].
  cbn [map decodeCSV_loop].
  rewrite (ParseUint_FormatUint g Hg). cbn [bind]. rewrite IH. cbn [bind].
  unfold uint32. rewrite Z.mod_small by lia. reflexivity.
Qed.

(** X8.  Round trip: the ids written as decimal numerals with commas between
    them are read back by [decodeCSV] as they were. *)
Theorem decodeCSV_round_trip (gids : list Z) :
  gids <> [] ->
  Forall (fun g => 0 <= g < 2 ^ 32) gids ->
  decodeCSV (csv_Data (Join_comma (map FormatUint gids))) = Ok gids.
Proof.
  intros Hne Hrange. unfold decodeCSV, csv_Data. cbn [RawData].
  assert (Hdigits : Forall (fun s => string_forall is_digit s = true)
                           (map FormatUint gids)).
  { apply Forall_map. eapply Forall_impl; [exact Hrange|].
    intros g [Hg0 Hg1].
    apply (FormatUint_digits_shape 10 g EmptyString);
      [assumption|reflexivity]. }
  rewrite strings_Map_cleaner_id by (apply Join_comma_cleaner; assumption).
  rewrite Split_comma_Join_comma.
  - apply decodeCSV_loop_FormatUint. assumption.
  - destruct gids; [contradiction|discriminate].
  - assumption.
Qed.

Lemma decodeCSV_round_trip_witness :
  decodeCSV (csv_Data (Join_comma (map FormatUint [1; 0; 4294967295])))
  = Ok [1; 0; 4294967295].
Proof.
  apply (decodeCSV_round_trip [1; 0; 4294967295]).
  - discriminate.
  - repeat constructor; lia.
Defined.

Example FormatUint_example :
  Join_comma (map FormatUint [1; 0; 4294967295]) = "1,0,4294967295".
Proof. reflexivity. Qed.

(** ** What [Read] establishes *)

Lemma decodeLayerBase64_ok `{Codec} (m : Map) (l l' : Layer) :
  decodeLayerBase64 m l = Ok l' ->
  exists gids, l' = set_GIDs l gids /\
               Z.of_nat (length gids) = Width m * Height m.
Proof.
  unfold decodeLayerBase64.
  destruct (decodeBase64 (Layer_Data l)) as [dataBytes|e]; [|discriminate].
  cbn [bind].
  destruct (Z.eqb_spec (Z.of_nat (length dataBytes))
              (Width m * Height m * 4)) as [Hlen|]; [|discriminate].
  cbn [negb].
  destruct (decodeLayerBase64_loops m dataBytes Hlen)
    as (j & gids & Hrun & Hl & _).
  rewrite Hrun. intros Hok. inversion Hok. exists gids.
  split; [reflexivity|]. rewrite Hl. lia.
Qed.

Lemma decodeLayer_ok `{Codec} (m : Map) (l l' : Layer) :
  decodeLayer m l = Ok l' ->
  exists gids, l' = set_GIDs l gids /\
               Z.of_nat (length gids) = Width m * Height m.
Proof.
  unfold decodeLayer.
  destruct (String.eqb (Encoding (Layer_Data l)) "csv").
  { unfold decodeLayerCSV.
    destruct (decodeCSV (Layer_Data l)) as [gids|e]; [|discriminate].
    cbn [bind].
    destruct (Z.eqb_spec (Z.of_nat (length gids)) (Width m * Height m));
      [|discriminate].
    intros Hok. inversion Hok. eauto. }
  destruct (String.eqb (Encoding (Layer_Data l)) "base64").
  { apply decodeLayerBase64_ok. }
  destruct (String.eqb (Encoding (Layer_Data l)) ""); [|discriminate].
  unfold decodeLayerXML.
  destruct (Z.eqb_spec (Z.of_nat (length (DataTiles (Layer_Data l))))
              (Width m * Height m)); [|discriminate].
  intros Hok. inversion Hok. eexists. split; [reflexivity|].
  rewrite length_map. assumption.
Qed.

Lemma decodeLayers_loop_ok `{Codec} (m : Map) (ls ls' : list Layer) :
  decodeLayers_loop m ls = Ok ls' ->
  Forall2 (fun l l' => exists gids, l' = set_GIDs l gids /\
             Z.of_nat (length gids) = Width m * Height m) ls ls'.
Proof.
  revert ls'. induction ls as [|l rest IH]; intros ls'; cbn [decodeLayers_loop].
  - intros Hok. inversion Hok. constructor.
  - destruct (decodeLayer m l) as [l1|e] eqn:Hl; [|discriminate]. cbn [bind].
    destruct (decodeLayers_loop m rest) as [rest'|e]; [|discriminate].
    cbn [bind]. intros Hok. inversion Hok; subst.
    constructor; [apply (decodeLayer_ok m l l1 Hl)|apply IH; reflexivity].
Qed.

Lemma DecodeGID_scan_Tilesets (m1 m2 : Map) (gid g : Z) (n : nat) :
  Tilesets m1 = Tilesets m2 ->
  DecodeGID_scan m1 gid g n = DecodeGID_scan m2 gid g n.
Proof.
  intros Hts. induction n as [|i IH]; cbn [DecodeGID_scan]; [reflexivity|].
  rewrite Hts, IH. reflexivity.
Qed.

Lemma DecodeGID_Tilesets (m1 m2 : Map) (gid : Z) :
  Tilesets m1 = Tilesets m2 -> DecodeGID m1 gid = DecodeGID m2 gid.
Proof.
  intros Hts. unfold DecodeGID.
  rewrite (DecodeGID_scan_Tilesets m1 m2) by assumption.
  rewrite Hts. reflexivity.
Qed.

Lemma DecodeGIDs_ok (m : Map) (gids : list Z) (tiles : list DecodedTile) :
  DecodeGIDs m gids = Ok tiles ->
  Forall2 (fun gid t => DecodeGID m gid = Ok t) gids tiles.
Proof.
  revert tiles. induction gids as [|gid rest IH]; intros tiles;
    cbn [DecodeGIDs].
  - intros Hok. inversion Hok. constructor.
  - destruct (DecodeGID m gid) as [t|e] eqn:Ht; [|discriminate]. cbn [bind].
    destruct (DecodeGIDs m rest) as [ts|e]; [|discriminate]. cbn [bind].
    intros Hok. inversion Hok; subst. constructor; [assumption|].
    apply IH. reflexivity.
Qed.

Lemma Read_decode_ok (m : Map) (ls ls' : list Layer) :
  Read_decode m ls = Ok ls' ->
  Forall2 (fun l l' => exists tiles,
             DecodeGIDs m (GIDs l) = Ok tiles /\
             l' = set_DecodedTiles l tiles) ls ls'.
Proof.
  revert ls'. induction ls as [|l rest IH]; intros ls'; cbn [Read_decode].
  - intros Hok. inversion Hok. constructor.
  - destruct (DecodeGIDs m (GIDs l)) as [tiles|e] eqn:Ht; [|discriminate].
    cbn [bind].
    destruct (Read_decode m rest) as [rest'|e]; [|discriminate]. cbn [bind].
    intros Hok. inversion Hok; subst. constructor; [eauto|].
    apply IH. reflexivity.
Qed.

Lemma Read_infer_fields (m : Map) (l : Layer) :
  Layer_Name (Read_infer m l) = Layer_Name l /\
  Layer_Properties (Read_infer m l) = Layer_Properties l /\
  Layer_Data (Read_infer m l) = Layer_Data l /\
  GIDs (Read_infer m l) = GIDs l /\
  DecodedTiles (Read_infer m l) = DecodedTiles l.
Proof.
  unfold Read_infer. destruct (getTileset m l) as [[ts e] [|]];
    repeat split.
Qed.

Lemma DecodeGIDs_Tilesets (m1 m2 : Map) (gids : list Z) :
  Tilesets m1 = Tilesets m2 -> DecodeGIDs m1 gids = DecodeGIDs m2 gids.
Proof.
  intros Hts. induction gids as [|gid rest IH]; cbn [DecodeGIDs];
    [reflexivity|].
  rewrite (DecodeGID_Tilesets m1 m2 gid Hts), IH. reflexivity.
Qed.

Lemma Read_infer_any_map (m1 m2 : Map) (l : Layer) :
  Read_infer m1 l = Read_infer m2 l.
Proof. reflexivity. Qed.

Lemma Forall2_compose {A B C : Type} (P : A -> B -> Prop)
    (Q : B -> C -> Prop) (l1 : list A) (l2 : list B) (l3 : list C) :
  Forall2 P l1 l2 -> Forall2 Q l2 l3 ->
  Forall2 (fun a c => exists b, P a b /\ Q b c) l1 l3.
Proof.
  intros H12. revert l3. induction H12; intros l3 H23; inversion H23; subst;
    constructor; eauto.
Qed.

(** The layers of a map that [Read] returns, one by one. *)
Lemma Read_layers `{Codec} (m m' : Map) :
  Read (Ok m) = Ok m' ->
  Width m' = Width m /\ Height m' = Height m /\
  Tilesets m' = Tilesets m /\
  Forall2 (fun l l' => exists gids tiles,
             Z.of_nat (length gids) = Width m * Height m /\
             DecodeGIDs m gids = Ok tiles /\
             l' = Read_infer m (set_DecodedTiles (set_GIDs l gids) tiles))
          (Layers m) (Layers m').
Proof.
  unfold Read. cbn [bind]. unfold decodeLayers.
  destruct (decodeLayers_loop m (Layers m)) as [ls1|e] eqn:Hdec;
    [|discriminate].
  cbn [bind set_Layers Layers].
  destruct (Read_decode _ ls1) as [ls2|e] eqn:Hres; [|discriminate].
  cbn [bind]. intros Hok. inversion Hok; subst m'; clear Hok.
  cbn [Width Height Tilesets Layers set_Layers].
  repeat split.
  apply decodeLayers_loop_ok in Hdec. apply Read_decode_ok in Hres.
  apply Forall2_fmap_r.
  eapply Forall2_impl; [exact (Forall2_compose _ _ _ _ _ Hdec Hres)|].
  intros l l2 (l1 & (gids & -> & Hlen) & (tiles & Htiles & ->)).
  exists gids, tiles. split; [assumption|]. split; [|reflexivity].
  cbn [GIDs set_GIDs] in Htiles.
  rewrite <- Htiles. apply DecodeGIDs_Tilesets. reflexivity.
Qed.



(** X10.  In a map that [Read] returns every cell is the resolution of the
    raw id at the same position, and no cell has its flag [Nil] set: after
    [Read], [IsNil] is false everywhere. *)
Theorem Read_cells_resolved `{Codec} (m m' : Map) :
  Read (Ok m) = Ok m' ->
  Forall (fun l' =>
            Forall2 (fun gid t => DecodeGID m' gid = Ok t /\ IsNil t = false)
                    (GIDs l') (DecodedTiles l')) (Layers m').
Proof.
  intros Hread.
  destruct (Read_layers m m' Hread) as (_ & _ & HT & Hlayers).
  eapply Forall2_Forall_r; [exact Hlayers|].
  apply Forall_forall. intros l _ l' (gids & tiles & _ & Htiles & ->).
  destruct (Read_infer_fields m (set_DecodedTiles (set_GIDs l gids) tiles))
    as (_ & _ & _ & -> & ->).
  cbn [GIDs DecodedTiles set_GIDs set_DecodedTiles].
  eapply Forall2_impl; [exact (DecodeGIDs_ok m gids tiles Htiles)|].
  intros gid t Ht. split.
  - rewrite <- Ht. apply DecodeGID_Tilesets. assumption.
  - unfold DecodeGID, IsNil in *. destruct (gid =? 0).
    + inversion Ht. reflexivity.
    + exact (DecodeGID_scan_Nil m gid _ _ t Ht).
Qed.

Lemma Read_cells_resolved_witness :
  let m' := grid 2 1 [tileset_of_size 1 4]
              [mkLayer "BG0" no_Properties (csv_Data "1,0") [1; 0]
                       [cell 0 0; NilTile] None false] in
  Forall (fun l' =>
            Forall2 (fun gid t => DecodeGID m' gid = Ok t /\ IsNil t = false)
                    (GIDs l') (DecodedTiles l')) (Layers m').
Proof.
  intros m'.
  apply (Read_cells_resolved
           (grid 2 1 [tileset_of_size 1 4] [csv_layer "1,0"]) m').
  reflexivity.
Defined.

(** ** What [getTileset] reports *)

Lemma getTileset_loop_set (tiles : list DecodedTile) (k : nat) :
  exists multi,
    getTileset_loop tiles (Some k) = (Some k, multi) /\
    (multi = false ->
     forall t, In t tiles -> Nil t = false -> Tileset_of t = Some k) /\
    (multi = true ->
     exists t, In t tiles /\ Nil t = false /\ Tileset_of t <> Some k).
Proof.
  induction tiles as [|tile rest (multi & Hrun & Hsingle & Hmulti)];
    cbn [getTileset_loop].
  - exists false. split; [reflexivity|]. split; [intros _ t []|discriminate].
  - destruct (Nil tile) eqn:Hnil; cbn [negb].
    + exists multi. split; [assumption|]. split.
      * intros Hm t [<-|Hin] Ht; [congruence|]. apply Hsingle; assumption.
      * intros Hm. destruct (Hmulti Hm) as (t & Hin & Ht).
        exists t. split; [right; assumption|assumption].
    + destruct (bool_decide_reflect (Some k <> Tileset_of tile))
        as [Hdiff|Hsame].
      * exists true. split; [reflexivity|]. split; [discriminate|].
        intros _. exists tile. split; [left; reflexivity|].
        split; [assumption|congruence].
      * assert (Htile : Tileset_of tile = Some k).
        { destruct (decide (Some k = Tileset_of tile)) as [E|E];
            [symmetry; exact E|contradiction]. }
        exists multi. split; [assumption|]. split.
        -- intros Hm t [<-|Hin] Ht; [assumption|]. apply Hsingle; assumption.
        -- intros Hm. destruct (Hmulti Hm) as (t & Hin & Ht).
           exists t. split; [right; assumption|assumption].
Qed.

Lemma getTileset_loop_unset (tiles : list DecodedTile) :
  exists ts multi,
    getTileset_loop tiles None = (ts, multi) /\
    (ts = None ->
     multi = false /\
     forall t, In t tiles -> Nil t = false -> Tileset_of t = None) /\
    (forall k, ts = Some k ->
       (exists t, In t tiles /\ Nil t = false /\ Tileset_of t = Some k) /\
       (multi = false ->
        forall t, In t tiles -> Nil t = false ->
                  Tileset_of t = Some k \/ Tileset_of t = None) /\
       (multi = true ->
        exists t, In t tiles /\ Nil t = false /\ Tileset_of t <> Some k)).
Proof.
  induction tiles as [|tile rest (ts & multi & Hrun & Hnone & Hsome)];
    cbn [getTileset_loop].
  - exists None, false. split; [reflexivity|]. split.
    + intros _. split; [reflexivity|intros t []].
    + discriminate.
  - destruct (Nil tile) eqn:Hnil; cbn [negb].
    + exists ts, multi. split; [assumption|]. split.
      * intros Hts. destruct (Hnone Hts) as [Hm Hall].
        split; [assumption|].
        intros t [<-|Hin] Ht; [congruence|]. apply Hall; assumption.
      * intros k Hts. destruct (Hsome k Hts) as ((t & Hin & Ht) & Hs & Hm).
        split; [exists t; split; [right; assumption|assumption]|]. split.
        -- intros Hmf t' [<-|Hin'] Ht'; [congruence|]. apply Hs; assumption.
        -- intros Hmt. destruct (Hm Hmt) as (t' & Hin' & Ht').
           exists t'. split; [right; assumption|assumption].
    + destruct (Tileset_of tile) as [k|] eqn:Htile.
      * destruct (getTileset_loop_set rest k)
          as (multi' & Hrun' & Hsingle & Hmulti).
        exists (Some k), multi'. split; [assumption|]. split; [discriminate|].
        intros k' Hk'. inversion Hk'; subst k'. split; [|split].
        -- exists tile. split; [left; reflexivity|]. split; assumption.
        -- intros Hm t [<-|Hin] Ht; [left; assumption|].
           left. apply Hsingle; assumption.
        -- intros Hm. destruct (Hmulti Hm) as (t & Hin & Ht).
           exists t. split; [right; assumption|assumption].
      * exists ts, multi. split; [assumption|]. split.
        -- intros Hts. destruct (Hnone Hts) as [Hm Hall].
           split; [assumption|].
           intros t [<-|Hin] Ht; [assumption|]. apply Hall; assumption.
        -- intros k Hts.
           destruct (Hsome k Hts) as ((t & Hin & Ht) & Hs & Hm).
           split; [exists t; split; [right; assumption|assumption]|]. split.
           ++ intros Hmf t' [<-|Hin'] Ht'; [right; assumption|].
              apply Hs; assumption.
           ++ intros Hmt. destruct (Hm Hmt) as (t' & Hin' & Ht').
              exists t'. split; [right; assumption|assumption].
Qed.

Lemma getTileset_cases (m : Map) (l : Layer) :
  let cells := DecodedTiles l in
  (getTileset m l = (None, true, false) /\
   forall t, In t cells -> Nil t = false -> Tileset_of t = None) \/
  (exists k,
     getTileset m l = (Some k, false, false) /\
     (exists t, In t cells /\ Nil t = false /\ Tileset_of t = Some k) /\
     forall t, In t cells -> Nil t = false ->
               Tileset_of t = Some k \/ Tileset_of t = None) \/
  (exists k,
     getTileset m l = (Some k, false, true) /\
     (exists t, In t cells /\ Nil t = false /\ Tileset_of t = Some k) /\
     (exists t, In t cells /\ Nil t = false /\ Tileset_of t <> Some k)).
Proof.
  intros cells. unfold getTileset. fold cells.
  destruct (getTileset_loop_unset cells)
    as (ts & multi & Hrun & Hnone & Hsome).
  rewrite Hrun. destruct ts as [k|].
  - destruct (Hsome k eq_refl) as (Hfirst & Hsingle & Hmulti).
    destruct multi.
    + right. right. exists k. split; [reflexivity|]. split; [assumption|].
      apply Hmulti. reflexivity.
    + right. left. exists k. split; [reflexivity|]. split; [assumption|].
      apply Hsingle. reflexivity.
  - destruct (Hnone eq_refl) as [-> Hall]. left.
    split; [reflexivity|assumption].
Qed.


Lemma DecodeGID_Tileset_valid (m : Map) (gid : Z) (t : DecodedTile) (k : nat) :
  DecodeGID m gid = Ok t -> Tileset_of t = Some k ->
  (k < length (Tilesets m))%nat.
Proof.
  unfold DecodeGID. destruct (gid =? 0).
  - intros Hok Hk. inversion Hok; subst. discriminate.
  - cbv zeta.
    destruct (DecodeGID_scan_cases m gid (Z.ldiff gid GIDFlip)
                (length (Tilesets m)) ltac:(lia))
      as [[Herr _]|(k' & tk & Hk' & _ & _ & _ & Hres)].
    + rewrite Herr. discriminate.
    + rewrite Hres. intros Hok Hk. inversion Hok; subst.
      cbn [Tileset_of] in Hk. inversion Hk; subst. assumption.
Qed.

(** X12.  If the decoded document leaves the derived fields of its layers
    unset, then in the map that [Read] returns a layer with a tileset is not
    marked empty, its tileset is one of the map's tilesets, and one of its
    cells is of that tileset. *)
Theorem Read_tileset_valid `{Codec} (m m' : Map) :
  Forall (fun l => Layer_Tileset l = None /\ Empty l = false) (Layers m) ->
  Read (Ok m) = Ok m' ->
  Forall (fun l' =>
            forall k, Layer_Tileset l' = Some k ->
              Empty l' = false /\
              (k < length (Tilesets m'))%nat /\
              exists t, In t (DecodedTiles l') /\ Tileset_of t = Some k)
         (Layers m').
Proof.
  intros Hunset Hread.
  destruct (Read_layers m m' Hread) as (_ & _ & HT & Hlayers).
  rewrite HT. clear Hread HT.
  induction Hlayers as [|l l' ls ls' Hl _ IH]; [constructor|].
  inversion Hunset as [|? ? [Hts Hempty] Hrest]; subst.
  constructor; [|apply IH; assumption].
  destruct Hl as (gids & tiles & _ & Htiles & ->).
  set (l2 := set_DecodedTiles (set_GIDs l gids) tiles).
  intros k Hk. unfold Read_infer in *.
  destruct (getTileset_cases m l2)
    as [[Hg _]|[(k' & Hg & (t & Hin & _ & Ht) & _)|(k' & Hg & _)]];
    rewrite Hg in *; cbn in Hk |- *.
  - discriminate.
  - inversion Hk; subst k'. split; [reflexivity|].
    split; [|exists t; split; assumption].
    cbn in Hin. apply list_elem_of_In in Hin.
    apply list_elem_of_lookup in Hin. destruct Hin as [i Hi].
    destruct (Forall2_lookup_r _ _ _ _ _ (DecodeGIDs_ok m gids tiles Htiles) Hi)
      as (gid & _ & Hgid).
    exact (DecodeGID_Tileset_valid m gid t k Hgid Ht).
  - congruence.
Qed.

Lemma Read_tileset_valid_witness :
  let m' := grid 2 1 [tileset_of_size 1 4]
              [mkLayer "BG0" no_Properties (csv_Data "0,1") [0; 1]
                       [NilTile; cell 0 0] (Some 0%nat) false] in
  Forall (fun l' =>
            forall k, Layer_Tileset l' = Some k ->
              Empty l' = false /\
              (k < length (Tilesets m'))%nat /\
              exists t, In t (DecodedTiles l') /\ Tileset_of t = Some k)
         (Layers m').
Proof.
  intros m'.
  apply (Read_tileset_valid
           (grid 2 1 [tileset_of_size 1 4] [csv_layer "0,1"]) m').
  - repeat constructor.
  - reflexivity.
Defined.

(** ** The GBA target and its cache *)

Lemma never_affine_new : never_affine GBA_new.
Proof. intros la b Hb. cbn in Hb. rewrite lookup_empty in Hb. discriminate. Qed.

Lemma isAffine_never (la : addr) (l : Layer) (g : GBA) :
  never_affine g ->
  fst (isAffine la l g) = false /\
  never_affine (snd (isAffine la l g)) /\
  nilTileCache (snd (isAffine la l g)) = nilTileCache g.
Proof.
  intros Hg. unfold isAffine.
  destruct (isAffineCache g !! la) as [b|] eqn:Hla; cbn [fst snd].
  - split; [exact (Hg la b Hla)|]. split; [assumption|reflexivity].
  - assert (Hfalse : String.eqb
              (fst (OfProperties.GetProperty (Layer_Properties l) "Affine"))
              "true" = false).
    { destruct (OfProperties_GetProperty_no_value (Layer_Properties l)
                  "Affine") as [E|E]; rewrite E; reflexivity. }
    rewrite Hfalse. split; [reflexivity|]. split; [|reflexivity].
    intros la' b Hb. cbn [isAffineCache] in Hb.
    destruct (decide (la = la')) as [->|Hne].
    + rewrite lookup_insert_eq in Hb. congruence.
    + rewrite lookup_insert_ne in Hb by assumption. exact (Hg la' b Hb).
Qed.

(** X13.  Once a layer has been asked about, the answer of [isAffine] for
    its address is fixed: a later call returns it and leaves the target as it
    is, whatever the properties of the layer passed then. *)
Theorem isAffine_memoized (la : addr) (l l' : Layer) (g : GBA) :
  isAffine la l' (snd (isAffine la l g)) = isAffine la l g.
Proof.
  unfold isAffine at 2 3.
  destruct (isAffineCache g !! la) as [b|] eqn:Hla; cbn [fst snd].
  - unfold isAffine. rewrite Hla. reflexivity.
  - unfold isAffine. cbn [isAffineCache]. rewrite lookup_insert_eq.
    reflexivity.
Qed.

(** X14.  On a target that has cached no layer as affine, and a new target
    is one, [MaxTiles] is 511 for every layer, whatever its [Affine]
    property, and the target still has cached no layer as affine. *)
Theorem GBA_MaxTiles_511 (m : Map) (la : addr) (l : Layer) (g : GBA) :
  never_affine g ->
  fst (GBA_MaxTiles m la l g) = 511 /\
  never_affine (snd (GBA_MaxTiles m la l g)).
Proof.
  intros Hg. unfold GBA_MaxTiles.
  destruct (isAffine_never la l g Hg) as (Hfalse & Hnever & _).
  destruct (isAffine la l g) as [affine g']. cbn [fst snd] in *.
  subst affine. split; [reflexivity|assumption].
Qed.

Lemma flip_entry_bits (id : Z) (h v : bool) :
  0 <= id < 2 ^ 10 ->
  let tid := Z.lor (Z.lor id (if h then GBAHFlip else 0))
                   (if v then GBAVFlip else 0) in
  0 <= tid < 2 ^ 12 /\ tid mod 2 ^ 10 = id /\
  Z.testbit tid 10 = h /\ Z.testbit tid 11 = v.
Proof.
  intros Hid tid.
  assert (Hh : 0 <= (if h then GBAHFlip else 0) < 2 ^ 12)
    by (destruct h; [change GBAHFlip with 1024|];
        change (2 ^ 12) with 4096; lia).
  assert (Hv : 0 <= (if v then GBAVFlip else 0) < 2 ^ 12)
    by (destruct v; [change GBAVFlip with 2048|];
        change (2 ^ 12) with 4096; lia).
  assert (Hid12 : 0 <= id < 2 ^ 12) by lia.
  split; [apply lor_range; [lia| |assumption]; apply lor_range; lia|].
  assert (Hbit10 : Z.testbit id 10 = false)
    by (apply (testbit_above id 10 10); lia).
  assert (Hbit11 : Z.testbit id 11 = false)
    by (apply (testbit_above id 11 10); lia).
  split; [|split].
  - unfold tid. rewrite <- !Z.land_ones by lia.
    rewrite !Z.land_lor_distr_l.
    replace (Z.land (if h then GBAHFlip else 0) (Z.ones 10)) with 0
      by (destruct h; reflexivity).
    replace (Z.land (if v then GBAVFlip else 0) (Z.ones 10)) with 0
      by (destruct v; reflexivity).
    rewrite !Z.lor_0_r, Z.land_ones by lia. apply Z.mod_small. lia.
  - unfold tid. rewrite !Z.lor_spec, Hbit10.
    destruct h, v; reflexivity.
  - unfold tid. rewrite !Z.lor_spec, Hbit11.
    destruct h, v; reflexivity.
Qed.

(** X15.  On a target that has cached no layer as affine, a cell whose flag
    [Nil] is not set becomes a 16-bit entry; when its local id is below 1024
    the low ten bits of the entry are the id, bit 10 is the horizontal and
    bit 11 the vertical flip flag, and no higher bit is set. *)
Theorem GBA_ScreenblockEntry_tile (m : Map) (la : addr) (l : Layer)
    (tile : DecodedTile) (g : GBA) :
  never_affine g -> IsNil tile = false -> 0 <= ID tile < 2 ^ 10 ->
  exists v,
    fst (GBA_ScreenblockEntry m la l tile g) = Ok (U16 v) /\
    never_affine (snd (GBA_ScreenblockEntry m la l tile g)) /\
    0 <= v < 2 ^ 12 /\ v mod 2 ^ 10 = ID tile /\
    Z.testbit v 10 = HorizontalFlip tile /\
    Z.testbit v 11 = VerticalFlip tile.
Proof.
  intros Hg Hnil Hid. unfold GBA_ScreenblockEntry.
  destruct (isAffine_never la l g Hg) as (Hfalse & Hnever & _).
  destruct (isAffine la l g) as [affine g']. cbn [fst snd] in *.
  subst affine. rewrite Hnil.
  assert (Hu : uint16 (ID tile) = ID tile)
    by (unfold uint16; apply Z.mod_small; lia).
  rewrite Hu.
  destruct (flip_entry_bits (ID tile) (HorizontalFlip tile)
              (VerticalFlip tile) Hid) as (Hrange & Hlow & H10 & H11).
  cbv zeta in Hrange, Hlow, H10, H11.
  exists (Z.lor (Z.lor (ID tile)
                   (if HorizontalFlip tile then GBAHFlip else 0))
            (if VerticalFlip tile then GBAVFlip else 0)).
  split; [|split; [assumption|repeat split; assumption || lia]].
  cbn [fst]. f_equal. f_equal.
  unfold uint16. rewrite Z.mod_small.
  - destruct (HorizontalFlip tile), (VerticalFlip tile);
      rewrite ?Z.lor_0_r; reflexivity.
  - destruct (HorizontalFlip tile), (VerticalFlip tile);
      rewrite ?Z.lor_0_r in *; lia.
Qed.

Lemma GBA_ScreenblockEntry_tile_witness :
  exists v,
    fst (GBA_ScreenblockEntry (grid 1 1 [tileset_of_size 1 16] []) 0%nat
           (layer_of [] [] (Some 0%nat) false)
           (mkDecodedTile 5 (Some 0%nat) true false false) GBA_new)
      = Ok (U16 v) /\
    never_affine
      (snd (GBA_ScreenblockEntry (grid 1 1 [tileset_of_size 1 16] []) 0%nat
              (layer_of [] [] (Some 0%nat) false)
              (mkDecodedTile 5 (Some 0%nat) true false false) GBA_new)) /\
    0 <= v < 2 ^ 12 /\ v mod 2 ^ 10 = 5 /\
    Z.testbit v 10 = true /\ Z.testbit v 11 = false.
Proof.
  apply (GBA_ScreenblockEntry_tile (grid 1 1 [tileset_of_size 1 16] []) 0%nat
           (layer_of [] [] (Some 0%nat) false)
           (mkDecodedTile 5 (Some 0%nat) true false false) GBA_new).
  - exact never_affine_new.
  - reflexivity.
  - simpl. lia.
Defined.

Lemma nilTile_hit (m : Map) (la : addr) (l : Layer) (g : GBA) (v : Z) :
  never_affine g -> nilTileCache g !! la = Some v ->
  fst (nilTile m la l g) = Ok (U16 v) /\
  nilTileCache (snd (nilTile m la l g)) = nilTileCache g /\
  never_affine (snd (nilTile m la l g)).
Proof.
  intros Hg Hv. unfold nilTile. rewrite Hv. cbn [default].
  destruct (isAffine_never la l g Hg) as (Hfalse & Hnever & Hcache).
  destruct (isAffine la l g) as [affine g']. cbn [fst snd] in *.
  subst affine. repeat split; assumption.
Qed.

Lemma nilTile_miss (m : Map) (la : addr) (l : Layer) (g : GBA) (ti : nat)
    (tileset : Tileset) :
  never_affine g -> nilTileCache g !! la = None ->
  Layer_Tileset l = Some ti -> Tilesets m !! ti = Some tileset ->
  fst (nilTile m la l g) = Ok (U16 0) /\
  nilTileCache (snd (nilTile m la l g))
    = <[la := uint16 (Z.of_nat (length (Tiles tileset)))]> (nilTileCache g) /\
  never_affine (snd (nilTile m la l g)).
Proof.
  intros Hg Hv Hl Hts. unfold nilTile. rewrite Hv, Hl. cbn [default mbind].
  cbn. rewrite Hts.
  assert (Hprop : fst (OfProperties.GetProperty (Layer_Properties l)
                         "NilTile") = "").
  { destruct (OfProperties_GetProperty_no_value (Layer_Properties l)
                "NilTile") as [E|E]; rewrite E; reflexivity. }
  rewrite Hprop. cbn [ParseUint].
  set (g2 := {| isAffineCache := isAffineCache g;
                nilTileCache :=
                  <[la := uint16 (Z.of_nat (length (Tiles tileset)))]>
                    (nilTileCache g) |}).
  assert (Hg2 : never_affine g2) by exact Hg.
  destruct (isAffine_never la l g2 Hg2) as (Hfalse & Hnever & Hcache).
  destruct (isAffine la l g2) as [affine g']. cbn [fst snd] in *.
  subst affine. repeat split; assumption.
Qed.



(** ** Indexed mode: compression and size *)

Lemma CompressionMethods_unknown (name : string) :
  ~ In name ["LZ77"; "RLE"; "Huffman4"; "Huffman8"] ->
  CompressionMethods !! name = None.
Proof.
  intros Hnot. unfold CompressionMethods.
  rewrite !lookup_insert_ne; [apply lookup_empty| | | |];
    intros <-; apply Hnot; simpl; tauto.
Qed.

(** X17.  A layer that passes the checks and whose single [Compression]
    property names none of LZ77, RLE, Huffman4 and Huffman8 (the names are
    compared as they are written) is refused with
    [InvalidCompressionMethod]; the writer is closed as it was handed in. *)
Theorem saveLayer_unknown_compression {C W : Type} `{Console C}
    `{WriteCloser W} `{Gbacomp W}
    (m : Map) (la : addr) (l : Layer) (w : W) (c : C) (ti : nat)
    (tileset : Tileset) (name : string) :
  Layer_Tileset l = Some ti -> Tilesets m !! ti = Some tileset ->
  Z.of_nat (length (Tiles tileset)) <= fst (MaxTiles m la l c) ->
  OfSlice.GetProperty (Properties_Properties (Layer_Properties l))
                      "Compression" = (name, None) ->
  name <> "" ->
  ~ In name ["LZ77"; "RLE"; "Huffman4"; "Huffman8"] ->
  saveLayer m la l w c
  = (Some InvalidCompressionMethod, Close w, snd (MaxTiles m la l c)).
Proof.
  intros Hl Hts Hmax Hprop Hne Hunknown. unfold saveLayer.
  rewrite Hl, Hts.
  destruct (MaxTiles m la l c) as [maxTiles c1]. cbn [fst snd] in *.
  replace (maxTiles <? Z.of_nat (length (Tiles tileset))) with false
    by zcases.
  rewrite Hprop. cbn [fst].
  destruct (String.eqb_spec name "") as [->|_]; [contradiction|].
  cbn [negb]. rewrite (CompressionMethods_unknown name Hunknown).
  reflexivity.
Qed.

Lemma saveLayer_unknown_compression_witness :
  saveLayer (grid 1 1 [tileset_of_size 1 16] []) 0%nat
    (layer_of [mkProperty "Compression" "Zstd"] [cell 0 0] (Some 0%nat)
              false) (empty_file 4) GBA_new
  = (Some InvalidCompressionMethod, Close (empty_file 4),
     snd (MaxTiles (grid 1 1 [tileset_of_size 1 16] []) 0%nat
            (layer_of [mkProperty "Compression" "Zstd"] [cell 0 0]
                      (Some 0%nat) false) GBA_new)).
Proof.
  apply (saveLayer_unknown_compression
           (grid 1 1 [tileset_of_size 1 16] []) 0%nat
           (layer_of [mkProperty "Compression" "Zstd"] [cell 0 0]
                     (Some 0%nat) false) (empty_file 4) GBA_new 0%nat
           (tileset_of_size 1 16) "Zstd").
  - reflexivity.
  - reflexivity.
  - vm_compute. discriminate.
  - reflexivity.
  - discriminate.
  - simpl. intros [E|[E|[E|[E|[]]]]]; discriminate.
Defined.

Lemma GBA_ScreenblockEntry_never (m : Map) (la : addr) (l : Layer)
    (tile : DecodedTile) (g : GBA) (ti : nat) (tileset : Tileset) :
  never_affine g ->
  Layer_Tileset l = Some ti -> Tilesets m !! ti = Some tileset ->
  exists v, fst (GBA_ScreenblockEntry m la l tile g) = Ok (U16 v) /\
            never_affine (snd (GBA_ScreenblockEntry m la l tile g)).
Proof.
  intros Hg Hl Hts. unfold GBA_ScreenblockEntry.
  destruct (isAffine_never la l g Hg) as (Hfalse & Hnever & _).
  destruct (isAffine la l g) as [affine g1]. cbn [fst snd] in *.
  subst affine. unfold IsNil. destruct (Nil tile).
  - destruct (nilTileCache g1 !! la) as [v|] eqn:Hv.
    + destruct (nilTile_hit m la l g1 v Hnever Hv) as (Hr & _ & Hn). eauto.
    + destruct (nilTile_miss m la l g1 ti tileset Hnever Hv Hl Hts)
        as (Hr & _ & Hn). eauto.
  - eexists. split; [reflexivity|assumption].
Qed.

(** X18.  On a GBA target that has cached no layer as affine, a layer with
    a tileset of at most 511 tiles, no compression and [n = width*height]
    cells, written to a file with room for [n] writes, is exported without
    error as exactly two bytes for each cell. *)
Theorem saveLayer_GBA_size (m : Map) (la : addr) (l : Layer) (s : Sink)
    (g : GBA) (ti : nat) (tileset : Tileset) :
  let n := (Z.to_nat (Height m) * Z.to_nat (Width m))%nat in
  never_affine g ->
  Layer_Tileset l = Some ti -> Tilesets m !! ti = Some tileset ->
  (length (Tiles tileset) <= 511)%nat ->
  fst (OfSlice.GetProperty (Properties_Properties (Layer_Properties l))
                           "Compression") = "" ->
  length (DecodedTiles l) = n -> (n <= room s)%nat ->
  let result := saveLayer m la l s g in
  fst (fst result) = None /\
  length (written (snd (fst result))) = (length (written s) + 2 * n)%nat /\
  closed (snd (fst result)) = true /\
  never_affine (snd result).
Proof.
  intros n Hg Hl Hts Hcount Hcomp Hcells Hroom result.
  unfold result, saveLayer. rewrite Hl, Hts.
  cbn [MaxTiles GBA_Console].
  unfold GBA_MaxTiles.
  destruct (isAffine_never la l g Hg) as (Haffine & Hg1 & _).
  destruct (isAffine la l g) as [affine g1]. cbn [fst snd] in *.
  subst affine. cbv iota.
  replace (511 <? Z.of_nat (length (Tiles tileset))) with false by zcases.
  rewrite Hcomp. cbn [String.eqb negb].
  unfold saveLayer_loop.
  destruct (for_range2_invariant (R := error)
              (fun k (st : nat * Sink * GBA) =>
                 fst (fst st) = k /\ never_affine (snd st) /\
                 length (written (snd (fst st)))
                   = (length (written s) + 2 * k)%nat /\
                 (room (snd (fst st)) + k)%nat = room s /\
                 closed (snd (fst st)) = closed s)
              (fun _ => saveLayer_body Write m la l)
              (Z.to_nat (Height m)) (Z.to_nat (Width m)) (0%nat, s, g1))
    as [[[i b] c] [Hrun (Hi & Hc & Hw & Hr & Hcl)]].
  - cbn [fst snd]. repeat split; try assumption; lia.
  - intros y x [[i b] c] Hy Hx (Hi & Hc & Hw & Hr & Hcl).
    cbn [fst snd] in Hi, Hc, Hw, Hr, Hcl.
    set (k := (y * Z.to_nat (Width m) + x)%nat) in *.
    assert (Hk : (k < n)%nat) by (unfold k, n; nia).
    destruct (lookup_lt_is_Some_2 (DecodedTiles l) i ltac:(lia)) as [t Ht].
    destruct (GBA_ScreenblockEntry_never m la l t c ti tileset Hc Hl Hts)
      as (v & Hentry & Hc').
    unfold saveLayer_body. rewrite Ht.
    cbn [ScreenblockEntry GBA_Console ByteOrder_of].
    destruct (GBA_ScreenblockEntry m la l t c) as [r c'].
    cbn [fst snd] in Hentry, Hc'. subst r.
    cbn [encode Write Sink_WriteCloser].
    destruct (room b) as [|rm] eqn:Hrb; [lia|].
    eexists. split; [reflexivity|].
    cbn [fst snd written room closed].
    repeat split; try assumption; try lia.
    rewrite length_app, Hw. cbn [length]. lia.
  - rewrite Hrun. cbn [fst snd] in *.
    cbn [Close Sink_WriteCloser written closed].
    repeat split; assumption.
Qed.

Lemma saveLayer_GBA_size_witness :
  let m := grid 2 1 [tileset_of_size 1 16] [] in
  let l := layer_of [mkProperty "Affine" "true"] [cell 0 3; nil_cell]
                    (Some 0%nat) false in
  let result := saveLayer m 0%nat l (empty_file 2) GBA_new in
  fst (fst result) = None /\
  length (written (snd (fst result)))
    = (length (written (empty_file 2))
       + 2 * (Z.to_nat (Height m) * Z.to_nat (Width m)))%nat /\
  closed (snd (fst result)) = true /\
  never_affine (snd result).
Proof.
  intros m l.
  apply (saveLayer_GBA_size m 0%nat l (empty_file 2) GBA_new 0%nat
           (tileset_of_size 1 16)).
  - exact never_affine_new.
  - reflexivity.
  - reflexivity.
  - simpl. lia.
  - reflexivity.
  - reflexivity.
  - simpl. lia.
Defined.

Lemma saveLayerBitmap_repeats_first_byte_witness :
  saveLayerBitmap (grid 4 4 [tileset_of_size 1 16] [])
    (layer_of [] (replicate 8 (cell 0 0) ++ replicate 8 nil_cell)%list
              (Some 0%nat) false) (empty_file 4)
  = (None,
     {| written := ([] ++ replicate (16 / 8) 255)%list;
        room := (4 - 16 / 8)%nat; closed := true |}).
Proof.
  apply (saveLayerBitmap_repeats_first_byte
           (grid 4 4 [tileset_of_size 1 16] [])
           (layer_of [] (replicate 8 (cell 0 0) ++ replicate 8 nil_cell)%list
                     (Some 0%nat) false) (empty_file 4)).
  - reflexivity.
  - simpl. lia.
Defined.

(** ** Object shapes *)

(** X19.  When [decodePoints] succeeds there is one point for each
    blank-separated token, each token has exactly one comma, and both
    coordinates of the point are the number before the comma: the number
    after the comma is never read. *)
Theorem decodePoints_Y_is_X `{Strconv} (s : string) (points : list Point) :
  decodePoints s = Ok points ->
  Forall2 (fun token p =>
             exists c0 c1, Split ","%char token = [c0; c1] /\
                           Atoi c0 = Ok (Point_X p) /\
                           Point_Y p = Point_X p)
          (Split " "%char s) points.
Proof.
  unfold decodePoints. generalize (Split " "%char s). intros tokens.
  revert points. induction tokens as [|token rest IH]; intros points;
    cbn [decodePoints_loop].
  - intros Hok. inversion Hok. constructor.
  - destruct (Split ","%char token) as [|c0 [|c1 [|c2 more]]] eqn:Hsplit;
      cbn [length Nat.eqb negb]; try discriminate.
    destruct (Atoi c0) as [x|e] eqn:Hx; cbn [bind]; [|discriminate].
    destruct (decodePoints_loop rest) as [pts|e]; cbn [bind]; [|discriminate].
    intros Hok. inversion Hok; subst. constructor.
    + exists c0, c1. split; [assumption|]. split; [assumption|reflexivity].
    + apply IH. reflexivity.
Qed.

Lemma decodePoints_Y_is_X_witness :
  Forall2 (fun token p =>
             exists c0 c1, Split ","%char token = [c0; c1] /\
                           Atoi c0 = Ok (Point_X p) /\
                           Point_Y p = Point_X p)
          (Split " "%char "0,5 16,7") [mkPoint 0 0; mkPoint 16 16].
Proof.
  apply (decodePoints_Y_is_X "0,5 16,7" [mkPoint 0 0; mkPoint 16 16]).
  reflexivity.
Defined.

(** ** File names *)

Lemma substring_prefix (base rest : string) :
  substring 0 (String.length base) (base ++ rest) = base.
Proof.
  induction base as [|c base IH]; simpl.
  - destruct rest; reflexivity.
  - rewrite IH. reflexivity.
Qed.

Lemma String_length_app (s1 s2 : string) :
  String.length (s1 ++ s2) = (String.length s1 + String.length s2)%nat.
Proof.
  induction s1 as [|c s1 IH]; simpl; [reflexivity|]. rewrite IH. reflexivity.
Qed.

(** X20.  For a file name with the extension [.tmx], the layer file is
    named after the name without its extension and without the character
    before it: [Do] cuts one character more than the extension and the
    dot. *)
Theorem Do_layer_file_cuts_a_character `{Filepath} (base : string)
    (c : ascii) (layerName : string) :
  Ext (base ++ String c ".tmx") = ".tmx" ->
  Do_layer_file (base ++ String c ".tmx") layerName
  = Ok (base ++ "." ++ layerName ++ ".layer")%string.
Proof.
  intros Hext. unfold Do_layer_file. rewrite Hext. cbn [TMXExt].
  change (String.eqb ".tmx" TMXExt) with true. cbn [negb].
  rewrite String_length_app. cbn [String.length].
  replace (Z.of_nat (String.length base + 5) - Z.of_nat 4 - 1)
    with (Z.of_nat (String.length base)) by lia.
  replace (Z.of_nat (String.length base) <? 0) with false by zcases.
  rewrite Nat2Z.id, substring_prefix. reflexivity.
Qed.

Lemma Do_layer_file_cuts_a_character_witness :
  Do_layer_file "hello.tmx" "BG0" = Ok "hell.BG0.layer".
Proof.
  apply (Do_layer_file_cuts_a_character "hell" "o"%char "BG0").
  reflexivity.
Defined.

(** ** The two resolvers *)

Lemma Map_id_scan_agrees (m : Map) (gid g : Z) (n : nat) :
  match DecodeGID_scan m gid g n, Map_id_scan m gid g n with
  | Ok t, Ok v => v = Z.lor (ID t) (Z.land gid GIDFlip)
  | Err e, Err Panic => e = InvalidGID \/ e = Panic
  | _, _ => False
  end.
Proof.
  induction n as [|i IH]; cbn [DecodeGID_scan Map_id_scan].
  - left. reflexivity.
  - destruct (Tilesets m !! i) as [ts|]; [|right; reflexivity].
    destruct (FirstGID ts <=? g); [reflexivity|exact IH].
Qed.

(** X21.  On a raw id whose bare id is not zero the resolver [Map.id] of the
    earlier revision and [DecodeGID] agree: both fail, the one by a panic
    and the other with [InvalidGID], or the packed result of the first is
    the local id of the second with the three flip bits of the raw id put
    back. *)
Theorem Map_id_agrees_with_DecodeGID (m : Map) (gid : Z) :
  Z.ldiff gid GIDFlip <> 0 ->
  match DecodeGID m gid, Map_id m gid with
  | Ok t, Ok v => v = Z.lor (ID t) (Z.land gid GIDFlip)
  | Err e, Err Panic => e = InvalidGID
  | _, _ => False
  end.
Proof.
  intros Hbare. unfold DecodeGID, Map_id.
  destruct (Z.eqb_spec gid 0) as [->|Hnz]; [contradiction Hbare; reflexivity|].
  cbv zeta.
  destruct (Z.eqb_spec (Z.ldiff gid GIDFlip) 0) as [E|_]; [contradiction|].
  pose proof (Map_id_scan_agrees m gid (Z.ldiff gid GIDFlip)
                (length (Tilesets m))) as Hscan.
  destruct (DecodeGID_scan_cases m gid (Z.ldiff gid GIDFlip)
              (length (Tilesets m)) ltac:(lia))
    as [[Herr _]|(k & tk & _ & _ & _ & _ & Hres)].
  - rewrite Herr in *.
    destruct (Map_id_scan m gid (Z.ldiff gid GIDFlip) (length (Tilesets m)))
      as [v|e']; [contradiction|].
    destruct e'; try contradiction. reflexivity.
  - rewrite Hres in *. exact Hscan.
Qed.

Lemma Map_id_agrees_with_DecodeGID_witness :
  match DecodeGID (map_of_tilesets [tileset_of_size 1 4]) 0xA0000003,
        Map_id (map_of_tilesets [tileset_of_size 1 4]) 0xA0000003 with
  | Ok t, Ok v => v = Z.lor (ID t) (Z.land 0xA0000003 GIDFlip)
  | Err e, Err Panic => e = InvalidGID
  | _, _ => False
  end.
Proof.
  apply (Map_id_agrees_with_DecodeGID
           (map_of_tilesets [tileset_of_size 1 4]) 0xA0000003).
  vm_compute. discriminate.
Defined.

(** ** Errors of [Read] and the mode of [Do] *)

Lemma decodeLayers_loop_first_error `{Codec} (m : Map)
    (pre post : list Layer) (l : Layer) (e : error) :
  Forall (fun l0 => exists l1, decodeLayer m l0 = Ok l1) pre ->
  decodeLayer m l = Err e ->
  decodeLayers_loop m (pre ++ l :: post)%list = Err e.
Proof.
  intros Hpre Hl. induction Hpre as [|l0 pre [l1 Hl0] _ IH];
    cbn [decodeLayers_loop app].
  - rewrite Hl. reflexivity.
  - rewrite Hl0. cbn [bind]. rewrite IH. reflexivity.
Qed.

(** X22.  [Read] returns the error of the first layer that does not decode,
    as it is: the layers after it are not looked at and no id is
    resolved. *)
Theorem Read_first_error `{Codec} (m : Map) (pre post : list Layer)
    (l : Layer) (e : error) :
  Layers m = (pre ++ l :: post)%list ->
  Forall (fun l0 => exists l1, decodeLayer m l0 = Ok l1) pre ->
  decodeLayer m l = Err e ->
  Read (Ok m) = Err e.
Proof.
  intros Hlayers Hpre Hl. unfold Read. cbn [bind]. unfold decodeLayers.
  rewrite Hlayers, (decodeLayers_loop_first_error m pre post l e Hpre Hl).
  reflexivity.
Qed.

Lemma Read_first_error_witness :
  Read (Ok (grid 2 1 [tileset_of_size 1 4]
              [csv_layer "1,2";
               mkLayer "BG1" no_Properties (mkData "json" "" "" []) [] []
                       None false;
               csv_layer "1"]))
  = Err UnknownEncoding.
Proof.
  apply (Read_first_error
           (grid 2 1 [tileset_of_size 1 4]
              [csv_layer "1,2";
               mkLayer "BG1" no_Properties (mkData "json" "" "" []) [] []
                       None false;
               csv_layer "1"])
           [csv_layer "1,2"] [csv_layer "1"]
           (mkLayer "BG1" no_Properties (mkData "json" "" "" []) [] []
                    None false) UnknownEncoding).
  - reflexivity.
  - repeat constructor. eexists. reflexivity.
  - reflexivity.
Defined.

(** X23.  [Do] exports a layer in bitmap mode exactly when the layer has one
    single property named [Bitmap] and its value is ["true"] as written; with
    no such property, with another value or with the property given twice
    the layer is exported in indexed mode. *)
Theorem Do_layer_mode {C W : Type} `{Console C} `{WriteCloser W}
    `{Gbacomp W} (m : Map) (la : addr) (l : Layer) (f : W) (c : C) :
  Do_layer m la l f c =
  match List.filter (fun prop => String.eqb (Property_Name prop) "Bitmap")
                    (Properties_Properties (Layer_Properties l)) with
  | [prop] =>
      if String.eqb (Property_Value prop) "true"
      then (fst (saveLayerBitmap m l f), snd (saveLayerBitmap m l f), c)
      else saveLayer m la l f c
  | _ => saveLayer m la l f c
  end.
Proof.
  unfold Do_layer.
  pose proof (OfSlice_GetProperty_spec
                (Properties_Properties (Layer_Properties l)) "Bitmap")
    as Hspec.
  cbv zeta in Hspec. rewrite Hspec.
  destruct (List.filter _ _) as [|prop [|prop2 more]]; cbn [fst].
  - reflexivity.
  - destruct (String.eqb (Property_Value prop) "true"); [|reflexivity].
    destruct (saveLayerBitmap m l f) as [err f']. reflexivity.
  - reflexivity.
Qed.

(** ** The two property lookups *)

(** X24.  The lookup [GetProperty] over a slice, the one [Do] calls, returns
    the value and no error when exactly one entry has the name,
    [PropertyUnavailable] with the empty string when none has, and
    [PropertyNotUnique] with the empty string when several have. *)
Theorem GetProperty_slice_cases (props : list Property) (name : string) :
  OfSlice.GetProperty props name =
    match List.filter (fun prop => String.eqb (Property_Name prop) name)
                      props with
    | [] => ("", Some PropertyUnavailable)
    | [prop] => (Property_Value prop, None)
    | _ :: _ :: _ => ("", Some PropertyNotUnique)
    end.
Proof. exact (OfSlice_GetProperty_spec props name). Qed.

(** X25.  The lookup [GetProperty] over [*tmx.Properties], the one the GBA
    target calls, never returns a value: its result is the empty string
    with [PropertyNotUnique] or with [PropertyUnavailable], whatever the
    properties hold. *)
Theorem GetProperty_pointer_never_a_value (p : Properties) (name : string) :
  OfProperties.GetProperty p name = ("", Some PropertyNotUnique) \/
  OfProperties.GetProperty p name = ("", Some PropertyUnavailable).
Proof. exact (OfProperties_GetProperty_no_value p name). Qed.
